(** * Assignment generator: the Markdown-subset document compiler

    A shallow embedding of the document-producing core of
    [enhanced_agent.py]:

    - [_escape_xml] and [_markdown_to_odt_content], the flow (ODT) track;
    - [parse_lines], [wrap_text_simple], the wrapping loop and the
      pagination loop of [create_assignment_pdf], the fixed-layout track.

    Python [str] values are sequences of Unicode code points, so a string
    is a list of code points here; [float] values are IEEE-754 binary64
    numbers, modelled by the primitive floats. *)

From Stdlib Require Import List ZArith NArith Bool Lia Ascii.
From Stdlib Require String.
From Stdlib Require Import DecimalString Floats.
Import ListNotations String.StringSyntax.
Delimit Scope string_scope with string.

Set Implicit Arguments.
Set Warnings "-inexact-float".

(* ================================================================== *)
(** * Python strings *)
(* ================================================================== *)

Module PyStr.

Open Scope N_scope.

(** A character is a Unicode code point. *)
Definition char := N.
Definition str := list char.

(** An ASCII literal, read as the list of its code points. *)
Definition lit (s : String.string) : str :=
  map N_of_ascii (String.list_ascii_of_string s).
Arguments lit s%_string.

Definition nl : char := 10.
Definition dquote : char := 34.
Definition hash : char := 35.
Definition amp : char := 38.
Definition apos : char := 39.
Definition lt : char := 60.
Definition gt : char := 62.
Definition backquote : char := 96.
(** U+2022, the bullet of the list items. *)
Definition bullet : char := 8226.

(** A markup literal.  The Python source writes its markup in single
    quoted literals that contain double quotes; here a back quote in the
    literal stands for the double quote. *)
Definition xml (s : String.string) : str :=
  map (fun c => if c =? backquote then dquote else c) (lit s).
Arguments xml s%_string.

Definition in_ranges (rs : list (N * N)) (c : char) : bool :=
  existsb (fun r => (fst r <=? c) && (c <=? snd r)) rs.

(** [str.isspace] on one code point; also what [\s] matches. *)
Definition space_ranges : list (N * N) :=
  [(9, 13); (28, 32); (133, 133); (160, 160); (5760, 5760); (8192, 8202);
   (8232, 8233); (8239, 8239); (8287, 8287); (12288, 12288)].

Definition is_space : char -> bool := in_ranges space_ranges.

(** Unicode category Nd (Unicode 14), what [\d] matches on a [str]
    pattern. *)
Definition decimal_ranges : list (N * N) :=
  [(48, 57); (1632, 1641); (1776, 1785); (1984, 1993); (2406, 2415);
   (2534, 2543); (2662, 2671); (2790, 2799); (2918, 2927); (3046, 3055);
   (3174, 3183); (3302, 3311); (3430, 3439); (3558, 3567); (3664, 3673);
   (3792, 3801); (3872, 3881); (4160, 4169); (4240, 4249); (6112, 6121);
   (6160, 6169); (6470, 6479); (6608, 6617); (6784, 6793); (6800, 6809);
   (6992, 7001); (7088, 7097); (7232, 7241); (7248, 7257); (42528, 42537);
   (43216, 43225); (43264, 43273); (43472, 43481); (43504, 43513);
   (43600, 43609); (44016, 44025); (65296, 65305); (66720, 66729);
   (68912, 68921); (69734, 69743); (69872, 69881); (69942, 69951);
   (70096, 70105); (70384, 70393); (70736, 70745); (70864, 70873);
   (71248, 71257); (71360, 71369); (71472, 71481); (71904, 71913);
   (72016, 72025); (72784, 72793); (73040, 73049); (73120, 73129);
   (92768, 92777); (92864, 92873); (93008, 93017); (120782, 120831);
   (123200, 123209); (123632, 123641); (125264, 125273); (130032, 130041)].

Definition is_decimal : char -> bool := in_ranges decimal_ranges.

Definition str_eq_dec : forall a b : str, {a = b} + {a <> b} :=
  list_eq_dec N.eq_dec.

Definition str_eqb (a b : str) : bool :=
  if str_eq_dec a b then true else false.

Fixpoint drop_while (p : char -> bool) (s : str) : str :=
  match s with
  | [] => []
  | c :: s' => if p c then drop_while p s' else s
  end.

Fixpoint take_while (p : char -> bool) (s : str) : str :=
  match s with
  | [] => []
  | c :: s' => if p c then c :: take_while p s' else []
  end.

(** [s.lstrip()], [s.rstrip()], [s.strip()]. *)
Definition lstrip (s : str) : str := drop_while is_space s.
Definition rstrip (s : str) : str := rev (drop_while is_space (rev s)).
Definition strip (s : str) : str := rstrip (lstrip s).

(** [s.lstrip(c)] for a one-character argument. *)
Definition lstrip_char (c : char) (s : str) : str :=
  drop_while (N.eqb c) s.

(** [s.startswith(p)]. *)
Fixpoint startswith (p s : str) : bool :=
  match p, s with
  | [], _ => true
  | _ :: _, [] => false
  | a :: p', b :: s' => (a =? b) && startswith p' s'
  end.

(** [s.split(sep)] for a one-character separator: every occurrence
    splits, empty pieces are kept, and the result is never empty. *)
Fixpoint split (sep : char) (s : str) : list str :=
  match s with
  | [] => [[]]
  | c :: s' =>
      if c =? sep then [] :: split sep s'
      else match split sep s' with
           | [] => [[c]]
           | w :: ws => (c :: w) :: ws
           end
  end.

(** [s.split()]: the maximal runs of non-whitespace characters.
    [cur] is the word being read, last character first. *)
Fixpoint split_ws_from (cur : str) (s : str) : list str :=
  match s with
  | [] => match cur with [] => [] | _ => [rev cur] end
  | c :: s' =>
      if is_space c
      then match cur with
           | [] => split_ws_from [] s'
           | _ => rev cur :: split_ws_from [] s'
           end
      else split_ws_from (c :: cur) s'
  end.

Definition split_ws (s : str) : list str := split_ws_from [] s.

(** [sep.join(parts)]. *)
Fixpoint join (sep : str) (parts : list str) : str :=
  match parts with
  | [] => []
  | [p] => p
  | p :: ps => p ++ sep ++ join sep ps
  end.

(** [s.replace(old, new)] for a one-character [old]. *)
Definition replace (old : char) (new : str) (s : str) : str :=
  flat_map (fun c => if c =? old then new else [c]) s.

(** [str(n)] for a non-negative integer. *)
Definition str_of_nat (n : nat) : str :=
  lit (NilZero.string_of_uint (Nat.to_uint n)).

(** [len(s)], as a Python integer. *)
Definition len (s : str) : Z := Z.of_nat (length s).

End PyStr.

Import PyStr.

(* ================================================================== *)
(** * Lines and blocks, common to the two tracks *)
(* ================================================================== *)

Module Markdown.

Open Scope N_scope.

(** What one line is taken for.  The source has no such type: each track
    decides the kind of a line in a chain of [if]s and acts on it at
    once; a block names the branch taken and the values it computed.
    [OrderedNoItem] is the branch of the flow track in which the test
    [re.match(r'^\s*\d+[\.|\)]\s+', line)] succeeds and the capturing
    match that follows it does not. *)
Inductive Block : Type :=
| Blank
| Heading (level : nat) (text : str)
| UnorderedItem (text : str)
| OrderedItem (ordinal text : str)
| OrderedNoItem
| Paragraph (text : str).

Definition is_list_item (b : Block) : bool :=
  match b with
  | UnorderedItem _ | OrderedItem _ _ | OrderedNoItem => true
  | _ => false
  end.

(** [lines = text.strip().split('\n')], each line then [rstrip]ped at
    the head of the loop body; the same in both tracks. *)
Definition source_lines (text : str) : list str :=
  map rstrip (split nl (strip text)).

(** [len(s) - len(s.lstrip('#'))]. *)
Definition hash_level (s : str) : nat :=
  (length s - length (lstrip_char hash s))%nat.

(** [s.startswith(('- ', '* ', '+ '))]. *)
Definition starts_with_bullet (s : str) : bool :=
  startswith (lit "- ") s || startswith (lit "* ") s
  || startswith (lit "+ ") s.

(** The character class [[\.|\)]]: a dot, a vertical bar or a closing
    parenthesis. *)
Definition is_marker (c : char) : bool :=
  (c =? 46) || (c =? 124) || (c =? 41).

(** [re.match(r'^\d+[\.|\)]\s+', s)]: the digit run, the whitespace run
    after the marker (as long as it can be) and what follows it.  The
    three classes are disjoint, so the greedy match is the only one. *)
Definition re_ordered (s : str) : option (str * str * str) :=
  let number := take_while is_decimal s in
  match number, drop_while is_decimal s with
  | _ :: _, m :: after =>
      if is_marker m then
        match take_while is_space after with
        | [] => None
        | ws => Some (number, ws, drop_while is_space after)
        end
      else None
  | _, _ => None
  end.

Definition not_nl (c : char) : bool := negb (c =? nl).

Fixpoint last_not_nl (s : str) : option char :=
  match s with
  | [] => None
  | c :: s' =>
      match last_not_nl s' with
      | Some d => Some d
      | None => if not_nl c then Some c else None
      end
  end.

(** The last group, [(.+)], of the capturing pattern of the flow track
    (the test pattern with groups, then [(.+)]), given the longest
    whitespace run [ws] and the [rest] after it.  A dot matches anything
    but a newline.  When nothing follows the whitespace, [\s+] gives
    characters back until the dot can match one of them. *)
Definition re_item_text (ws rest : str) : option str :=
  match rest with
  | _ :: _ => Some (take_while not_nl rest)
  | [] =>
      match ws with
      | [] => None
      | _ :: ws' => option_map (fun c => [c]) (last_not_nl ws')
      end
  end.

End Markdown.

Import Markdown.

(* ================================================================== *)
(** * The flow track: ODT content *)
(* ================================================================== *)

Module Flow.

Open Scope N_scope.

Definition _escape_xml (text : str) : str :=
  replace apos (lit "&apos;")
    (replace dquote (lit "&quot;")
       (replace gt (lit "&gt;")
          (replace lt (lit "&lt;")
             (replace amp (lit "&amp;") text)))).

(** The chain of tests of the loop body of [_markdown_to_odt_content],
    on a line that was [rstrip]ped. *)
Definition classify (line : str) : Block :=
  match line with
  | [] => Blank
  | _ :: _ =>
      if startswith [hash] line then
        let level := hash_level line in
        Heading level (strip (skipn level line))
      else
        let stripped := lstrip line in
        if starts_with_bullet stripped then
          UnorderedItem (strip (skipn 2 stripped))
        else
          match re_ordered (lstrip line) with
          | Some (number, ws, rest) =>
              match re_item_text ws rest with
              | Some item_text => OrderedItem number item_text
              | None => OrderedNoItem
              end
          | None => Paragraph line
          end
  end.

(** ** The markup of each element *)

Definition p_break : str := xml "<text:p text:style-name=`P1`/>".
Definition list_open_L1 : str := xml "<text:list text:style-name=`L1`>".
Definition list_open_L2 : str := xml "<text:list text:style-name=`L2`>".
Definition list_close : str := xml "</text:list>".

Definition heading_style (level : nat) : str :=
  match level with
  | 1%nat => lit "Heading_20_1"
  | 2%nat => lit "Heading_20_2"
  | _ => lit "Heading_20_3"
  end.

Definition heading_element (level : nat) (heading_text : str) : str :=
  xml "<text:h text:style-name=`" ++ heading_style level
  ++ xml "` text:outline-level=`" ++ str_of_nat level ++ xml "`>"
  ++ _escape_xml heading_text ++ xml "</text:h>".

Definition item_open : str :=
  xml "<text:list-item><text:p text:style-name=`P2`>".
Definition item_close : str := xml "</text:p></text:list-item>".

Definition bullet_item (item_text : str) : str :=
  item_open ++ [bullet; 32] ++ _escape_xml item_text ++ item_close.

Definition numbered_item (number item_text : str) : str :=
  item_open ++ number ++ lit ". " ++ _escape_xml item_text ++ item_close.

Definition paragraph_element (line : str) : str :=
  xml "<text:p text:style-name=`P1`>" ++ _escape_xml line ++ xml "</text:p>".

(** ** The loop *)

(** The variables the loop updates. *)
Record emitter : Type := {
  content_lines : list str;
  list_level : Z;
  in_list : bool
}.

Definition start : emitter :=
  {| content_lines := []; list_level := 0; in_list := false |}.

Definition append (st : emitter) (l : str) : emitter :=
  {| content_lines := content_lines st ++ [l];
     list_level := list_level st;
     in_list := in_list st |}.

(** [in_list = False; list_level = 0], done under [if in_list:]. *)
Definition leave_list (st : emitter) : emitter :=
  if in_list st
  then {| content_lines := content_lines st; list_level := 0;
          in_list := false |}
  else st.

(** Under [if not in_list:], the opening tag, [in_list = True] and
    [list_level = 1]. *)
Definition enter_list (tag : str) (st : emitter) : emitter :=
  if in_list st then st
  else {| content_lines := content_lines st ++ [tag]; list_level := 1;
          in_list := true |}.

(** Under [if in_list:], the closing tag and the two resets. *)
Definition close_list (st : emitter) : emitter :=
  if in_list st
  then {| content_lines := content_lines st ++ [list_close];
          list_level := 0; in_list := false |}
  else st.

(** One turn of the loop, on the line as [split] gave it. *)
Definition feed (st : emitter) (raw : str) : emitter :=
  let line := rstrip raw in
  match classify line with
  | Blank => append (leave_list st) p_break
  | Heading level heading_text =>
      append (leave_list st) (heading_element level heading_text)
  | UnorderedItem item_text =>
      append (enter_list list_open_L1 st) (bullet_item item_text)
  | OrderedItem number item_text =>
      append (enter_list list_open_L2 st) (numbered_item number item_text)
  | OrderedNoItem => enter_list list_open_L2 st
  | Paragraph line => append (close_list st) (paragraph_element line)
  end.

(** The lines collected when the function returns: the loop over
    [text.strip().split('\n')], then the closing of a list left open. *)
Definition emitted (text : str) : list str :=
  let st := fold_left feed (split nl (strip text)) start in
  content_lines
    (if in_list st then append st list_close else st).

Definition _markdown_to_odt_content (text : str) : str :=
  join [nl] (emitted text).

(** ** The content part of [create_assignment_odt] *)

(** The text of [content.xml]: the cover page, then the body. *)
Definition content_xml
  (title university_name name registration_number instructor_name
     semester content_body : str) : str :=
  xml "<?xml version=`1.0` encoding=`UTF-8`?>
<office:document-content xmlns:office=`urn:oasis:names:tc:opendocument:xmlns:office:1.0` xmlns:style=`urn:oasis:names:tc:opendocument:xmlns:style:1.0` xmlns:text=`urn:oasis:names:tc:opendocument:xmlns:text:1.0` xmlns:fo=`urn:oasis:names:tc:opendocument:xmlns:xsl-fo-compatible:1.0` office:version=`1.3`>
    <office:body>
        <office:text>
            <!-- Cover Page -->
            <text:p text:style-name=`P3`>
                <text:span text:style-name=`Title`>"
  ++ _escape_xml title
  ++ xml "</text:span>
            </text:p>
            <text:p text:style-name=`P1`/>
            <text:p text:style-name=`P3`>
                <text:span text:style-name=`Subtitle`>"
  ++ _escape_xml university_name
  ++ xml "</text:span>
            </text:p>
            <text:p text:style-name=`P1`/>
            <text:p text:style-name=`P1`/>
            <text:p text:style-name=`P3`>
                <text:span style:font-weight=`bold`>Student Name:</text:span> "
  ++ _escape_xml name
  ++ xml "
            </text:p>
            <text:p text:style-name=`P3`>
                <text:span style:font-weight=`bold`>Registration Number:</text:span> "
  ++ _escape_xml registration_number
  ++ xml "
            </text:p>
            <text:p text:style-name=`P3`>
                <text:span style:font-weight=`bold`>Instructor:</text:span> "
  ++ _escape_xml instructor_name
  ++ xml "
            </text:p>
            <text:p text:style-name=`P3`>
                <text:span style:font-weight=`bold`>Semester:</text:span> "
  ++ _escape_xml semester
  ++ xml "
            </text:p>
            
            <!-- Page break before content -->
            <text:p text:style-name=`P1` style:page-break-before=`page`/>
            
            <!-- Assignment Content -->
            "
  ++ content_body
  ++ xml "
        </office:text>
    </office:body>
</office:document-content>".

(** [content_xml] as [create_assignment_odt] builds it from its
    arguments. *)
Definition odt_content
  (name registration_number instructor_name semester university_name
     assignment_text title : str) : str :=
  content_xml title university_name name registration_number
    instructor_name semester (_markdown_to_odt_content assignment_text).

End Flow.

(* ================================================================== *)
(** * Python numbers *)
(* ================================================================== *)

Module PyNum.

Open Scope float_scope.

(** [float(z)] for a Python integer in the range of the floats: the
    nearest binary64 number. *)
Definition float_of_int (z : Z) : float :=
  SF2Prim (binary_normalize prec emax z 0 false).

(** The conversion of an integer operand in a mixed operation such as
    [12.0 / fs]: an integer whose nearest float would be an infinity
    raises [OverflowError]. *)
Definition operand_of_int (z : Z) : option float :=
  let f := float_of_int z in
  if is_infinity f then None else Some f.

(** [a / b] on floats: a zero divisor raises [ZeroDivisionError]. *)
Definition py_div (a b : float) : option float :=
  if b =? 0 then None else Some (a / b).

(** [int(x)]: truncation towards zero; an infinity or a NaN raises. *)
Definition py_int (x : float) : option Z :=
  match Prim2SF x with
  | S754_zero _ => Some 0%Z
  | S754_finite s m e =>
      let a := if (0 <=? e)%Z then Z.shiftl (Zpos m) e
               else Z.shiftr (Zpos m) (- e) in
      Some (if s then (- a)%Z else a)
  | S754_infinity _ | S754_nan => None
  end.

End PyNum.

Import PyNum.

(* ================================================================== *)
(** * The fixed-layout track: PDF pages *)
(* ================================================================== *)

Module Pdf.


Inductive Weight : Type := normal | bold.

(** The style dictionary attached to each parsed line. *)
Record Style : Type := {
  fontsize : Z;
  weight : Weight;
  indent : float;
  line_height_multiplier : float
}.

Definition styled : Type := str * Style.

(** ** Layout constants of [create_assignment_pdf] *)

Definition width : float := 8.27.
Definition height : float := 11.69.
Definition left_margin : float := 1.0 / width.
Definition right_margin : float := 1.0 / width.
Definition top_margin : float := 1.0 / height.
Definition bottom_margin : float := 1.0 / height.
Definition base_line_height : float := 0.2 / height.

(** ** [parse_lines] *)

(** The chain of tests of the loop body of [parse_lines], on a line
    that was [rstrip]ped. *)
Definition classify (line : str) : Block :=
  match line with
  | [] => Blank
  | _ :: _ =>
      let stripped := lstrip line in
      if startswith [hash] stripped then
        let level := hash_level stripped in
        Heading level (strip (skipn level stripped))
      else if starts_with_bullet stripped then
        UnorderedItem (strip (skipn 2 stripped))
      else
        match re_ordered stripped with
        | Some (number, _, content) => OrderedItem number content
        | None => Paragraph (strip line)
        end
  end.

Definition mk_style (size : Z) (w : Weight) (ind mult : float) : Style :=
  {| fontsize := size; weight := w; indent := ind;
     line_height_multiplier := mult |}.

(** What each branch appends to [parsed]. *)
Definition parsed_of (b : Block) : option styled :=
  match b with
  | Blank => Some ([], mk_style 12 normal 0.0 0.5)
  | Heading level content =>
      Some (content,
            match level with
            | 1%nat => mk_style 18 bold 0.0 2.0
            | 2%nat => mk_style 16 bold 0.0 1.8
            | _ => mk_style 14 bold 0.0 1.6
            end)
  | UnorderedItem content =>
      Some ([bullet; 32%N] ++ content, mk_style 12 normal 0.03 1.2)
  | OrderedItem number content =>
      Some (number ++ lit ". " ++ content, mk_style 12 normal 0.03 1.2)
  | OrderedNoItem => None
  | Paragraph content => Some (content, mk_style 12 normal 0.0 1.3)
  end.

Definition parse_lines (text : str) : list styled :=
  flat_map
    (fun raw =>
       match parsed_of (classify (rstrip raw)) with
       | Some p => [p]
       | None => []
       end)
    (split nl (strip text)).

(** ** [wrap_text_simple] *)

Record wrap_state : Type := {
  lines : list str;
  current_line : list str;
  current_length : Z
}.

(** [if current_line: lines.append(' '.join(current_line))]. *)
Definition flush (ls : list str) (cur : list str) : list str :=
  match cur with
  | [] => ls
  | _ :: _ => ls ++ [join [32%N] cur]
  end.

Definition wrap_word (max_chars_per_line : Z) (st : wrap_state) (word : str)
  : wrap_state :=
  let word_length := len word in
  let space_length :=
    match current_line st with [] => 0%Z | _ :: _ => 1%Z end in
  if (current_length st + space_length + word_length
      <=? max_chars_per_line)%Z
  then {| lines := lines st;
          current_line := current_line st ++ [word];
          current_length :=
            (current_length st + space_length + word_length)%Z |}
  else {| lines := flush (lines st) (current_line st);
          current_line := [word];
          current_length := word_length |}.

Definition wrap_text_simple (text : str) (max_chars_per_line : Z)
  : list str :=
  match strip text with
  | [] => [[]]
  | _ :: _ =>
      let st :=
        fold_left (wrap_word max_chars_per_line) (split_ws text)
          {| lines := []; current_line := []; current_length := 0 |} in
      match flush (lines st) (current_line st) with
      | [] => [[]]
      | ls => ls
      end
  end.

(** ** The wrapping loop *)

Definition available_width : float := (1.0 - left_margin - right_margin)%float.

(** [int(available_width * 120)]; the product is finite and [int]
    does not raise on it. *)
Definition base_max_chars : Z :=
  match py_int (available_width * float_of_int 120)%float with
  | Some n => n
  | None => 0
  end.

(** The budget of one parsed line; [None] when Python would raise. *)
Definition max_chars_of (style : Style) : option Z :=
  match operand_of_int (fontsize style) with
  | None => None
  | Some fs =>
      match py_div 12.0 fs with
      | None => None
      | Some size_factor =>
          match
            py_div (available_width - indent style)%float available_width
          with
          | None => None
          | Some indent_factor =>
              py_int (float_of_int base_max_chars * size_factor
                      * indent_factor)%float
          end
      end
  end.

Definition tight (style : Style) : Style :=
  {| fontsize := fontsize style; weight := weight style;
     indent := indent style; line_height_multiplier := 1.0 |}.

(** The [enumerate] loop: every line but the last gets the multiplier
    [1.0]. *)
Fixpoint spaced (style : Style) (ls : list str) : list styled :=
  match ls with
  | [] => []
  | [l] => [(l, style)]
  | l :: ls' => (l, tight style) :: spaced style ls'
  end.

Definition wrap_parsed (p : styled) : option (list styled) :=
  match fst p with
  | [] => Some [([], snd p)]
  | _ :: _ =>
      match max_chars_of (snd p) with
      | None => None
      | Some max_chars =>
          Some (spaced (snd p) (wrap_text_simple (fst p) max_chars))
      end
  end.

Fixpoint wrap_all (parsed_lines : list styled) : option (list styled) :=
  match parsed_lines with
  | [] => Some []
  | p :: ps =>
      match wrap_parsed p, wrap_all ps with
      | Some l, Some ls => Some (l ++ ls)
      | _, _ => None
      end
  end.

(** ** The pagination loop *)

(** One call of [render_page]: the number it prints and the lines it
    is given. *)
Record Page : Type := {
  number : Z;
  page_lines : list styled
}.

Record paginator : Type := {
  rendered : list Page;
  page_number : Z;
  current_page_content : list styled;
  current_y : float
}.

Definition line_height_of (style : Style) : float :=
  (base_line_height * line_height_multiplier style
   * (float_of_int (fontsize style) / 12.0))%float.

Definition page_top : float := (1.0 - top_margin)%float.

(** [render_page(current_page_content)], which ends with
    [page_number += 1]. *)
Definition render_page (st : paginator) : paginator :=
  {| rendered :=
       rendered st ++ [{| number := page_number st;
                          page_lines := current_page_content st |}];
     page_number := page_number st + 1;
     current_page_content := current_page_content st;
     current_y := current_y st |}.

Definition place (st : paginator) (l : styled) : paginator :=
  let line_height := line_height_of (snd l) in
  let st1 :=
    if (current_y st - line_height <? bottom_margin)%float then
      match current_page_content st with
      | [] => st
      | _ :: _ =>
          let r := render_page st in
          {| rendered := rendered r; page_number := page_number r;
             current_page_content := []; current_y := page_top |}
      end
    else st in
  {| rendered := rendered st1; page_number := page_number st1;
     current_page_content := current_page_content st1 ++ [l];
     current_y := (current_y st1 - line_height)%float |}.

(** The content pages rendered for a list of wrapped lines. *)
Definition paginate (wrapped : list styled) : list Page :=
  let st :=
    fold_left place wrapped
      {| rendered := []; page_number := 1; current_page_content := [];
         current_y := page_top |} in
  rendered
    (match current_page_content st with
     | [] => st
     | _ :: _ => render_page st
     end).

(** The content pages of [create_assignment_pdf]. *)
Definition content_pages (assignment_text : str) : option (list Page) :=
  option_map paginate (wrap_all (parse_lines assignment_text)).

End Pdf.

(* ================================================================== *)
(** * What the claims observe *)
(* ================================================================== *)

Module Observe.

(** All the lines of a sequence of pages, page after page. *)
Definition all_lines (ps : list Pdf.Page) : list Pdf.styled :=
  concat (map Pdf.page_lines ps).

(** The lines a paginator holds: those of the rendered pages, then those
    of the page in progress. *)
Definition held (st : Pdf.paginator) : list Pdf.styled :=
  all_lines (Pdf.rendered st) ++ Pdf.current_page_content st.

(** The number of places of [s] at which [pat] starts. *)
Fixpoint count_sub (pat s : str) : nat :=
  match s with
  | [] => 0
  | _ :: s' => (if startswith pat s then 1 else 0) + count_sub pat s'
  end.

(** The list containers opened and closed in the output of
    [_markdown_to_odt_content]: the occurrences of the opening tag (which
    goes on with an attribute) and of the closing tag. *)
Definition opened (text : str) : nat :=
  count_sub (xml "<text:list ") (Flow._markdown_to_odt_content text).

Definition closed (text : str) : nat :=
  count_sub (xml "</text:list>") (Flow._markdown_to_odt_content text).

(** What a list block writes apart from the tags of the container. *)
Definition item_lines (b : Block) : list str :=
  match b with
  | UnorderedItem t => [Flow.bullet_item t]
  | OrderedItem n t => [Flow.numbered_item n t]
  | _ => []
  end.

(** The policy of the claim on a change of list category: the open
    container is closed and one of the numbered style is opened before
    the item of the line [raw]. *)
Definition closes_and_reopens (st : Flow.emitter) (raw : str) : Prop :=
  exists item,
    Flow.content_lines (Flow.feed st raw)
    = Flow.content_lines st
      ++ [Flow.list_close; Flow.list_open_L2; item].

(** [sum(len(f) for f in ls)]. *)
Definition total_len (ls : list str) : Z :=
  fold_right (fun l acc => (len l + acc)%Z) 0%Z ls.

(** [' '.join(text.split())]: the words of the text, one space between
    two of them. *)
Definition normalised (text : str) : str := join [32%N] (split_ws text).

(** A group of words fits the budget [n] when, joined, it is no longer
    than [n], or when it is one word. *)
Definition fits (n : Z) (g : list str) : Prop :=
  (len (join [32%N] g) <= n)%Z \/ exists w, g = [w].

(** The state of the loop of [wrap_text_simple] after the words [done]:
    the closed lines are groups of words, each fitting the budget, and
    the groups followed by the words of the line in progress are the
    words read so far. *)
Definition wrapped_so_far (n : Z) (done : list str) (st : Pdf.wrap_state)
  : Prop :=
  exists groups,
    Pdf.lines st = map (join [32%N]) groups
    /\ Forall (fun g => g <> [] /\ fits n g) groups
    /\ concat groups ++ Pdf.current_line st = done
    /\ (Pdf.current_line st = [] \/ fits n (Pdf.current_line st))
    /\ Pdf.current_length st = len (join [32%N] (Pdf.current_line st)).

(** The five entities that [_escape_xml] writes. *)
Definition entities : list str :=
  [lit "&amp;"; lit "&lt;"; lit "&gt;"; lit "&quot;"; lit "&apos;"].

Definition begins_entity (s : str) : Prop :=
  exists e, In e entities /\ startswith e s = true.

(** Every ampersand of [s] begins one of the five entities. *)
Definition amps_begin_entities (s : str) : Prop :=
  forall pre post, s = pre ++ amp :: post -> begins_entity (amp :: post).

(** A test of [amps_begin_entities], to settle it on a given string. *)
Fixpoint amps_checked (s : str) : bool :=
  match s with
  | [] => true
  | c :: s' =>
      (if (c =? amp)%N then existsb (fun e => startswith e s) entities
       else true)
      && amps_checked s'
  end.

(** A string in which every ampersand begins an entity and that holds
    no apostrophe: no markup literal of the flow track has either
    character, so only a payload written as it is can break this. *)
Definition well_escaped (s : str) : Prop :=
  amps_begin_entities s /\ ~ In apos s.

(** A string with no ampersand and no apostrophe. *)
Definition plain (s : str) : bool :=
  forallb (fun c => negb (c =? amp)%N && negb (c =? apos)%N) s.

(** The characters of [s] among the four that, with the ampersand, are
    escaped: the two angle brackets and the two quotes. *)
Definition is_markup_char (c : char) : bool :=
  ((c =? lt) || (c =? gt) || (c =? dquote) || (c =? apos))%N.

Definition markup_chars (s : str) : str := filter is_markup_char s.

(** What [_escape_xml] writes for one character. *)
Definition escape_char (c : char) : str :=
  if (c =? amp)%N then lit "&amp;"
  else if (c =? lt)%N then lit "&lt;"
  else if (c =? gt)%N then lit "&gt;"
  else if (c =? dquote)%N then lit "&quot;"
  else if (c =? apos)%N then lit "&apos;"
  else [c].

(** The lines of the flow output that open and that close a list
    container, and the other lines: one element each. *)
Definition is_list_open (l : str) : bool := startswith (xml "<text:list ") l.
Definition is_list_close (l : str) : bool :=
  startswith (xml "</text:list>") l.
Definition is_list_tag (l : str) : bool := is_list_open l || is_list_close l.

Definition elements (ls : list str) : list str :=
  filter (fun l => negb (is_list_tag l)) ls.

(** The element that a block is written as, its payload escaped. *)
Definition element_of (b : Block) : list str :=
  match b with
  | Blank => [Flow.p_break]
  | Heading level t => [Flow.heading_element level t]
  | UnorderedItem t => [Flow.bullet_item t]
  | OrderedItem n t => [Flow.numbered_item n t]
  | OrderedNoItem => []
  | Paragraph t => [Flow.paragraph_element t]
  end.

(** The angle brackets and quotes of the markup of a line: those of a
    heading, of a paragraph, of a paragraph break or an opening tag, of
    a closing tag, and of a list item. *)
Definition skeletons : list str :=
  [xml "<````><>"; xml "<``><>"; xml "<``>"; xml "<>"; xml "<><``><><>"].

(** A line with the angle brackets and quotes of its markup only. *)
Definition bare (l : str) : Prop := In (markup_chars l) skeletons.

End Observe.

Import Observe.

#[local] Arguments is_space : simpl never.
#[local] Arguments is_decimal : simpl never.

(* ================================================================== *)
(** * Facts on strings *)
(* ================================================================== *)

Section StringFacts.

Open Scope N_scope.

Lemma take_drop_while (p : char -> bool) (s : str) :
  take_while p s ++ drop_while p s = s.
Proof.
  induction s as [|c s IH]; cbn; [reflexivity|].
  destruct (p c); cbn; [now rewrite IH | reflexivity].
Qed.

Lemma take_while_all (p : char -> bool) (s : str) :
  forallb p (take_while p s) = true.
Proof.
  induction s as [|c s IH]; cbn; [reflexivity|].
  destruct (p c) eqn:E; cbn; [now rewrite E | reflexivity].
Qed.

Lemma take_while_id (p : char -> bool) (s : str) :
  forallb p s = true -> take_while p s = s.
Proof.
  induction s as [|c s IH]; cbn; [reflexivity|].
  destruct (p c); cbn; [intros H; now rewrite IH | discriminate].
Qed.

Lemma drop_while_all (p : char -> bool) (s : str) :
  forallb p s = true -> drop_while p s = [].
Proof.
  induction s as [|c s IH]; cbn; [reflexivity|].
  destruct (p c); cbn; [exact IH | discriminate].
Qed.

Lemma drop_while_nil_all (p : char -> bool) (s : str) :
  drop_while p s = [] -> forallb p s = true.
Proof.
  induction s as [|c s IH]; cbn; [reflexivity|].
  destruct (p c); cbn; [exact IH | discriminate].
Qed.

Lemma take_while_app (p : char -> bool) (a b : str) :
  forallb p a = true -> take_while p (a ++ b) = a ++ take_while p b.
Proof.
  induction a as [|c a IH]; cbn; [reflexivity|].
  destruct (p c); cbn; [intros H; now rewrite IH | discriminate].
Qed.

Lemma drop_while_app (p : char -> bool) (a b : str) :
  forallb p a = true -> drop_while p (a ++ b) = drop_while p b.
Proof.
  induction a as [|c a IH]; cbn; [reflexivity|].
  destruct (p c); cbn; [exact IH | discriminate].
Qed.

Lemma drop_while_head (p : char -> bool) (c : char) (s : str) :
  p c = false -> drop_while p (c :: s) = c :: s.
Proof. intros H; cbn. now rewrite H. Qed.

Lemma take_while_head (p : char -> bool) (c : char) (s : str) :
  p c = false -> take_while p (c :: s) = [].
Proof. intros H; cbn. now rewrite H. Qed.

Lemma drop_while_idem (p : char -> bool) (s : str) :
  drop_while p (drop_while p s) = drop_while p s.
Proof.
  induction s as [|c s IH]; cbn; [reflexivity|].
  destruct (p c) eqn:E; [exact IH | cbn; now rewrite E].
Qed.

Lemma drop_while_length (p : char -> bool) (s : str) :
  (length (drop_while p s) <= length s)%nat.
Proof.
  induction s as [|c s IH]; cbn; [lia|].
  destruct (p c); cbn; lia.
Qed.

(** A string that [drop_while] leaves as long as it was is left as it
    was. *)
Lemma drop_while_same_length (p : char -> bool) (s : str) :
  length (drop_while p s) = length s -> drop_while p s = s.
Proof.
  destruct s as [|c s]; cbn; [reflexivity|].
  destruct (p c); [|reflexivity].
  pose proof (drop_while_length p s). lia.
Qed.

Lemma forallb_rev (p : char -> bool) (s : str) :
  forallb p (rev s) = forallb p s.
Proof.
  induction s as [|c s IH]; cbn; [reflexivity|].
  rewrite forallb_app, IH. cbn. now rewrite andb_true_r, andb_comm.
Qed.

Lemma In_drop_while (p : char -> bool) (c : char) (s : str) :
  In c (drop_while p s) -> In c s.
Proof.
  induction s as [|d s IH]; cbn; [tauto|].
  destruct (p d); cbn; tauto.
Qed.

Lemma In_rstrip (c : char) (s : str) : In c (rstrip s) -> In c s.
Proof.
  unfold rstrip. rewrite <- in_rev. intros H.
  apply In_drop_while in H. now rewrite <- in_rev in H.
Qed.

Lemma rstrip_idem (s : str) : rstrip (rstrip s) = rstrip s.
Proof.
  unfold rstrip. now rewrite rev_involutive, drop_while_idem.
Qed.

Lemma rstrip_length (s : str) : (length (rstrip s) <= length s)%nat.
Proof.
  unfold rstrip. rewrite length_rev.
  pose proof (drop_while_length is_space (rev s)) as H.
  now rewrite length_rev in H.
Qed.

Lemma rstrip_app_spaces (a ws : str) :
  forallb is_space ws = true -> rstrip (a ++ ws) = rstrip a.
Proof.
  intros H. unfold rstrip. rewrite rev_app_distr, drop_while_app.
  - reflexivity.
  - now rewrite forallb_rev.
Qed.

(** A string that ends with whitespace is not its own [rstrip]. *)
Lemma rstrip_fixed_no_trailing_space (a ws : str) :
  ws <> [] -> forallb is_space ws = true -> rstrip (a ++ ws) <> a ++ ws.
Proof.
  intros Hne Hws E. rewrite rstrip_app_spaces in E by assumption.
  pose proof (rstrip_length a) as L. rewrite E, length_app in L.
  destruct ws; [congruence | cbn in L; lia].
Qed.

Lemma rstrip_nil_all (s : str) : rstrip s = [] -> forallb is_space s = true.
Proof.
  unfold rstrip. intros H.
  apply (f_equal (@rev char)) in H. rewrite rev_involutive in H. cbn in H.
  apply drop_while_nil_all in H. now rewrite forallb_rev in H.
Qed.

Lemma strip_nil_all (s : str) : strip s = [] -> forallb is_space s = true.
Proof.
  unfold strip, lstrip. intros H. apply rstrip_nil_all in H.
  rewrite <- (take_drop_while is_space s), forallb_app, H.
  now rewrite take_while_all.
Qed.

(** No piece of [split] contains the separator. *)
Lemma split_no_sep (sep : char) (s : str) :
  forall w, In w (split sep s) -> ~ In sep w.
Proof.
  induction s as [|c s IH]; cbn; intros w H.
  - destruct H as [<-|[]]. tauto.
  - destruct (c =? sep) eqn:E.
    + destruct H as [<-|H]; [tauto | now apply IH].
    + apply N.eqb_neq in E.
      destruct (split sep s) as [|w0 ws] eqn:Es.
      * destruct H as [<-|[]]. cbn. intuition congruence.
      * destruct H as [<-|H].
        -- cbn. intros [F|F]; [congruence|].
           revert F. apply IH. now left.
        -- apply IH. now right.
Qed.

(** The lines that the two loops work on are their own [rstrip] and
    hold no newline. *)
Lemma source_lines_shape (text line : str) :
  In line (source_lines text) -> rstrip line = line /\ ~ In nl line.
Proof.
  unfold source_lines. rewrite in_map_iff. intros [raw [<- H]].
  split; [apply rstrip_idem|].
  intros F. apply In_rstrip in F. revert F. now apply split_no_sep in H.
Qed.

Lemma in_ranges_lower (lo : N) (rs : list (N * N)) (c : char) :
  forallb (fun r => lo <=? fst r) rs = true ->
  in_ranges rs c = true -> lo <= c.
Proof.
  unfold in_ranges.
  induction rs as [|r rs IH]; cbn; [discriminate|].
  rewrite andb_true_iff, orb_true_iff, andb_true_iff.
  rewrite !N.leb_le. intros [H1 H2] [[H3 H4]|H]; [lia | now apply IH].
Qed.

Lemma in_ranges_disjoint (rs qs : list (N * N)) (c : char) :
  forallb (fun r =>
             forallb (fun q => (snd r <? fst q) || (snd q <? fst r)) qs)
    rs = true ->
  in_ranges rs c = true -> in_ranges qs c = false.
Proof.
  unfold in_ranges.
  induction rs as [|r rs IH]; cbn; [discriminate|].
  rewrite andb_true_iff, orb_true_iff, andb_true_iff, !N.leb_le.
  intros [Hr Hrs] [[H1 H2]|H]; [|now apply IH].
  clear IH Hrs. induction qs as [|q qs IHq]; cbn; [reflexivity|].
  cbn in Hr. rewrite andb_true_iff, orb_true_iff, !N.ltb_lt in Hr.
  destruct Hr as [Hq Hqs]. rewrite (IHq Hqs), orb_false_r.
  apply andb_false_iff. rewrite !N.leb_gt. lia.
Qed.

(** A decimal digit is above the ASCII punctuation and is not
    whitespace. *)
Lemma decimal_lower (c : char) : is_decimal c = true -> 48 <= c.
Proof. apply in_ranges_lower. vm_compute. reflexivity. Qed.

Lemma decimal_not_space (c : char) :
  is_decimal c = true -> is_space c = false.
Proof. apply in_ranges_disjoint. vm_compute. reflexivity. Qed.

Lemma space_not_decimal (c : char) :
  is_space c = true -> is_decimal c = false.
Proof. apply in_ranges_disjoint. vm_compute. reflexivity. Qed.

End StringFacts.

(* ================================================================== *)
(** * The two line classifiers *)
(* ================================================================== *)

Section Classifiers.

Open Scope N_scope.
#[local] Arguments N.eqb : simpl never.

Lemma not_nl_all (s : str) : ~ In nl s -> forallb not_nl s = true.
Proof.
  induction s as [|c s IH]; cbn; [reflexivity|]. intros H.
  rewrite IH by tauto. unfold not_nl.
  destruct (c =? nl) eqn:E; [|reflexivity].
  apply N.eqb_eq in E. tauto.
Qed.

(** What a successful match of the ordered-item pattern says of the
    string. *)
Lemma re_ordered_shape (s number ws rest : str) :
  re_ordered s = Some (number, ws, rest) ->
  exists m,
    s = number ++ m :: ws ++ rest /\ number <> []
    /\ forallb is_decimal number = true /\ is_marker m = true
    /\ ws <> [] /\ forallb is_space ws = true.
Proof.
  unfold re_ordered. intros H.
  pose proof (take_drop_while is_decimal s) as Hs.
  pose proof (take_while_all is_decimal s) as Hd.
  destruct (take_while is_decimal s) as [|d ds]; [discriminate|].
  destruct (drop_while is_decimal s) as [|m after]; [discriminate|].
  destruct (is_marker m) eqn:Em; [|discriminate].
  pose proof (take_drop_while is_space after) as Ha.
  pose proof (take_while_all is_space after) as Hw.
  destruct (take_while is_space after) as [|w ws0]; [discriminate|].
  injection H as <- <- <-.
  exists m. rewrite Ha. repeat split; auto; discriminate.
Qed.

(** The converse: a digit run, a marker, whitespace, then something that
    does not start with whitespace. *)
Lemma re_ordered_intro (number ws rest : str) (m : char) :
  number <> [] -> forallb is_decimal number = true ->
  is_marker m = true -> is_decimal m = false ->
  ws <> [] -> forallb is_space ws = true ->
  drop_while is_space rest = rest ->
  re_ordered (number ++ m :: ws ++ rest) = Some (number, ws, rest).
Proof.
  intros Hn Hd Hm Hmd Hw Hs Hr. unfold re_ordered.
  rewrite take_while_app, drop_while_app by assumption.
  rewrite take_while_head, drop_while_head, app_nil_r by assumption.
  destruct number as [|d ds]; [congruence|].
  rewrite Hm, take_while_app, drop_while_app by assumption.
  rewrite Hr.
  assert (Ht : take_while is_space rest = []).
  { pose proof (take_drop_while is_space rest) as E. rewrite Hr in E.
    apply (f_equal (@length char)) in E. rewrite length_app in E.
    destruct (take_while is_space rest); [reflexivity | cbn in E; lia]. }
  rewrite Ht, app_nil_r.
  destruct ws; [congruence | reflexivity].
Qed.

Lemma strip_fixed_iff (line : str) :
  rstrip line = line -> (strip line = line <-> lstrip line = line).
Proof.
  intros R. unfold strip. split.
  - intros H. apply drop_while_same_length.
    pose proof (rstrip_length (lstrip line)) as L1.
    pose proof (drop_while_length is_space line) as L2.
    rewrite H in L1. unfold lstrip in L1. lia.
  - intros ->. exact R.
Qed.

Lemma starts_with_bullet_head (c : char) (s : str) :
  c <> 45 -> c <> 42 -> c <> 43 -> starts_with_bullet (c :: s) = false.
Proof.
  intros H1 H2 H3. unfold starts_with_bullet. cbn.
  apply N.eqb_neq in H1, H2, H3.
  rewrite (N.eqb_sym 45), (N.eqb_sym 42), (N.eqb_sym 43).
  now rewrite H1, H2, H3.
Qed.

(** On a line of the loops, the item text that the flow track captures
    is all that follows the whitespace after the marker. *)
Lemma item_text_on_source_line (line number ws rest : str) :
  rstrip line = line -> ~ In nl line ->
  re_ordered (lstrip line) = Some (number, ws, rest) ->
  re_item_text ws rest = Some rest.
Proof.
  intros R Hnl H. apply re_ordered_shape in H as (m & E & _ & _ & _ & Hw & Hs).
  pose proof (take_drop_while is_space line) as D.
  fold (lstrip line) in D. rewrite E in D.
  destruct rest as [|c r].
  - exfalso. rewrite app_nil_r in D.
    apply (@rstrip_fixed_no_trailing_space
             (take_while is_space line ++ number ++ [m]) ws Hw Hs).
    rewrite <- !app_assoc. cbn. now rewrite D.
  - cbn [re_item_text]. f_equal. apply take_while_id, not_nl_all.
    intros F. apply Hnl. rewrite <- D.
    rewrite !in_app_iff. right. right. cbn. rewrite in_app_iff. tauto.
Qed.

(** On the lines of the loop, the capturing match of the flow track
    succeeds whenever its test does: no ordered line is left without an
    item. *)
Lemma flow_ordered_line_has_item (text line : str) :
  In line (source_lines text) -> Flow.classify line <> OrderedNoItem.
Proof.
  intros Hin. apply source_lines_shape in Hin as [R Hnl].
  unfold Flow.classify. destruct line as [|c l]; [discriminate|].
  destruct (startswith [hash] (c :: l)); [discriminate|].
  destruct (starts_with_bullet _); [discriminate|].
  destruct (re_ordered _) as [[[number ws] rest]|] eqn:Er; [|discriminate].
  now rewrite (item_text_on_source_line R Hnl Er).
Qed.

(** The claim of C3 fails on an indented heading that is not the first
    line: the flow track tests the line itself for the hash sign and
    takes the line for a paragraph, indentation kept; the fixed-layout
    track tests the line stripped on the left and takes it for a
    heading. *)
Lemma indented_heading_classified_differently :
  let line := lit "  # T" in
  In line (source_lines (lit "a
  # T")) /\
  Flow.classify line = Paragraph (lit "  # T") /\
  Pdf.classify line = Heading 1 (lit "T") /\
  Flow.classify line <> Pdf.classify line.
Proof.
  cbv zeta. repeat split; try (vm_compute; reflexivity).
  - vm_compute. right. now left.
  - vm_compute. discriminate.
Qed.

(** C3, amended.  On a line of the loops, the two tracks give the same
    block, payload included, exactly when the line does not start with
    whitespace or is a list item.  An indented line that the
    fixed-layout track takes for a heading or a paragraph is a paragraph
    with its indentation kept in the flow track. *)
Theorem classifiers_agree_iff (text line : str) :
  In line (source_lines text) ->
  (Flow.classify line = Pdf.classify line
   <-> lstrip line = line \/ is_list_item (Pdf.classify line) = true).
Proof.
  intros Hin. apply source_lines_shape in Hin as [R Hnl].
  destruct line as [|c l]; [cbn; tauto|].
  unfold Flow.classify, Pdf.classify.
  destruct (startswith [hash] (c :: l)) eqn:Eh.
  - assert (Hc : lstrip (c :: l) = c :: l).
    { cbn in Eh. rewrite andb_true_r in Eh. apply N.eqb_eq in Eh.
      subst c. reflexivity. }
    rewrite Hc, Eh. tauto.
  - destruct (lstrip (c :: l)) as [|d x] eqn:Ed.
    + (* nothing but whitespace: excluded by [rstrip] *)
      exfalso. apply drop_while_nil_all in Ed.
      apply (@rstrip_fixed_no_trailing_space [] (c :: l));
        [discriminate | exact Ed | exact R].
    + destruct (startswith [hash] (d :: x)) eqn:Es.
      * cbn in Es. rewrite andb_true_r in Es. apply N.eqb_eq in Es.
        subst d. rewrite starts_with_bullet_head by (cbv; discriminate).
        cbn. split; [discriminate|].
        intros [H|H]; [|discriminate].
        injection H as <- _. cbn in Eh. discriminate.
      * destruct (starts_with_bullet (d :: x)); [tauto|].
        destruct (re_ordered (d :: x)) as [[[number ws] rest]|] eqn:Er.
        -- rewrite <- Ed in Er.
           rewrite (item_text_on_source_line R Hnl Er). cbn. tauto.
        -- cbn [is_list_item]. rewrite <- Ed.
           pose proof (strip_fixed_iff R) as S. split.
           ++ intros H. injection H as H. left. now apply S.
           ++ intros [H|H]; [|discriminate]. f_equal. symmetry.
              now apply S.
Qed.

Lemma classifiers_agree_iff_witness :
  Flow.classify (lit "1) x") = Pdf.classify (lit "1) x").
Proof.
  apply (proj2 (@classifiers_agree_iff (lit "a
1) x") (lit "1) x") (or_intror (or_introl eq_refl)))).
  left. reflexivity.
Defined.

(** C9.  A line made of a digit run, a vertical bar, whitespace and a
    text that does not start with whitespace is an ordered item in both
    tracks, numbered by the digit run and carrying the text. *)
Theorem bar_marker_is_ordered (number ws : str) (c : char) (r : str) :
  number <> [] -> forallb is_decimal number = true ->
  ws <> [] -> forallb is_space ws = true ->
  is_space c = false -> ~ In nl r ->
  let line := number ++ [124] ++ ws ++ c :: r in
  Flow.classify line = OrderedItem number (c :: r) /\
  Pdf.classify line = OrderedItem number (c :: r).
Proof.
  intros Hn Hd Hw Hs Hc Hr line.
  assert (Hre : re_ordered line = Some (number, ws, c :: r)).
  { subst line. cbn [app]. apply re_ordered_intro; auto.
    now rewrite drop_while_head. }
  destruct number as [|d ds] eqn:En; [congruence|].
  assert (Hdd : is_decimal d = true).
  { cbn in Hd. now apply andb_true_iff in Hd. }
  pose proof (decimal_lower d Hdd) as L.
  pose proof (decimal_not_space d Hdd) as Sd.
  assert (Hl : lstrip line = line).
  { subst line. cbn [app]. unfold lstrip. now rewrite drop_while_head. }
  assert (Hh : startswith [hash] line = false).
  { subst line. cbn. rewrite andb_true_r. apply N.eqb_neq.
    unfold hash. lia. }
  assert (Hb : starts_with_bullet line = false).
  { subst line. cbn [app]. apply starts_with_bullet_head; lia. }
  assert (Ht : re_item_text ws (c :: r) = Some (c :: r)).
  { cbn [re_item_text]. f_equal. apply take_while_id. cbn.
    rewrite not_nl_all by assumption. unfold not_nl.
    destruct (c =? nl) eqn:E; [|reflexivity].
    apply N.eqb_eq in E. subst c. discriminate Hc. }
  unfold Flow.classify, Pdf.classify.
  rewrite Hl, Hh, Hb, Hre, Ht.
  subst line. cbn [app]. split; reflexivity.
Qed.

Lemma bar_marker_is_ordered_witness :
  Flow.classify (lit "1| x") = OrderedItem (lit "1") (lit "x") /\
  Pdf.classify (lit "1| x") = OrderedItem (lit "1") (lit "x").
Proof.
  apply (@bar_marker_is_ordered (lit "1") (lit " ") 120 []);
    try reflexivity; try discriminate.
  intros [].
Defined.

End Classifiers.

(* ================================================================== *)
(** * Escaping *)
(* ================================================================== *)

Section Escaping.

Import Flow.

Open Scope N_scope.
#[local] Arguments N.eqb : simpl never.

Lemma replace_app (old : char) (new a b : str) :
  replace old new (a ++ b) = replace old new a ++ replace old new b.
Proof. unfold replace. apply flat_map_app. Qed.

(** Each character is escaped on its own, once: the entity written for
    an ampersand is not touched by the four replacements that follow. *)
Lemma escape_xml_cons (c : char) (s : str) :
  _escape_xml (c :: s) = escape_char c ++ _escape_xml s.
Proof.
  unfold _escape_xml.
  change (c :: s) with ([c] ++ s).
  rewrite !replace_app. f_equal.
  unfold escape_char.
  destruct (c =? amp) eqn:E1.
  { apply N.eqb_eq in E1. subst c. vm_compute. reflexivity. }
  destruct (c =? lt) eqn:E2.
  { apply N.eqb_eq in E2. subst c. vm_compute. reflexivity. }
  destruct (c =? gt) eqn:E3.
  { apply N.eqb_eq in E3. subst c. vm_compute. reflexivity. }
  destruct (c =? dquote) eqn:E4.
  { apply N.eqb_eq in E4. subst c. vm_compute. reflexivity. }
  destruct (c =? apos) eqn:E5.
  { apply N.eqb_eq in E5. subst c. vm_compute. reflexivity. }
  unfold replace. cbn. rewrite E1. cbn. rewrite E2. cbn. rewrite E3. cbn.
  rewrite E4. cbn. rewrite E5. reflexivity.
Qed.

Lemma escape_xml_pointwise (s : str) :
  _escape_xml s = flat_map escape_char s.
Proof.
  induction s as [|c s IH]; [reflexivity|].
  rewrite escape_xml_cons, IH. reflexivity.
Qed.

Lemma markup_chars_app (a b : str) :
  markup_chars (a ++ b) = markup_chars a ++ markup_chars b.
Proof. apply filter_app. Qed.

Lemma markup_chars_escape_char (c : char) : markup_chars (escape_char c) = [].
Proof.
  unfold escape_char.
  destruct (c =? amp) eqn:E1; [reflexivity|].
  destruct (c =? lt) eqn:E2; [reflexivity|].
  destruct (c =? gt) eqn:E3; [reflexivity|].
  destruct (c =? dquote) eqn:E4; [reflexivity|].
  destruct (c =? apos) eqn:E5; [reflexivity|].
  cbn. unfold is_markup_char. now rewrite E2, E3, E4, E5.
Qed.

Lemma markup_chars_escape_xml (s : str) : markup_chars (_escape_xml s) = [].
Proof.
  induction s as [|c s IH]; [reflexivity|].
  now rewrite escape_xml_cons, markup_chars_app, markup_chars_escape_char.
Qed.

Lemma markup_chars_nil_not_in (s : str) (c : char) :
  markup_chars s = [] -> is_markup_char c = true -> ~ In c s.
Proof.
  intros H Hc F.
  assert (G : In c (markup_chars s)) by (apply filter_In; auto).
  now rewrite H in G.
Qed.

(** ** Ampersands *)

Lemma amps_checked_sound (s : str) :
  amps_checked s = true -> amps_begin_entities s.
Proof.
  induction s as [|c s IH]; intros H pre post E.
  - destruct pre; discriminate.
  - cbn [amps_checked] in H. apply andb_true_iff in H as [H1 H2].
    destruct pre as [|p pre]; cbn in E; injection E as E0 E.
    + subst c s. rewrite N.eqb_refl in H1.
      apply existsb_exists in H1 as [e He]. now exists e.
    + apply (IH H2 pre post E).
Qed.

Lemma startswith_app (e a b : str) :
  startswith e a = true -> startswith e (a ++ b) = true.
Proof.
  revert a. induction e as [|x e IH]; intros a H; [reflexivity|].
  destruct a as [|y a]; [discriminate|]. cbn in *.
  apply andb_true_iff in H as [H1 H2]. now rewrite H1, IH.
Qed.

Lemma amps_app (a b : str) :
  amps_begin_entities a -> amps_begin_entities b ->
  amps_begin_entities (a ++ b).
Proof.
  intros Ha Hb pre post E.
  apply app_eq_app in E as [l [[E1 E2]|[E1 E2]]].
  - destruct l as [|x l].
    + cbn in E2. apply (Hb [] post). now rewrite <- E2.
    + cbn in E2. injection E2 as Ex Ep. subst x post.
      destruct (Ha pre l E1) as [e [He Hs]].
      exists e. split; [exact He|].
      change (amp :: l ++ b) with ((amp :: l) ++ b).
      now apply startswith_app.
  - apply (Hb l post E2).
Qed.

Lemma amps_none (s : str) : ~ In amp s -> amps_begin_entities s.
Proof.
  intros H pre post E. exfalso. apply H. rewrite E.
  apply in_or_app. right. now left.
Qed.

Lemma amps_escape_char (c : char) : amps_begin_entities (escape_char c).
Proof.
  unfold escape_char.
  destruct (c =? amp) eqn:E1; [now apply amps_checked_sound|].
  destruct (c =? lt); [now apply amps_checked_sound|].
  destruct (c =? gt); [now apply amps_checked_sound|].
  destruct (c =? dquote); [now apply amps_checked_sound|].
  destruct (c =? apos); [now apply amps_checked_sound|].
  apply amps_none. intros [F|[]]. subst c. discriminate E1.
Qed.

Lemma amps_escape_xml (s : str) : amps_begin_entities (_escape_xml s).
Proof.
  induction s as [|c s IH].
  - now apply amps_checked_sound.
  - rewrite escape_xml_cons.
    apply amps_app; [apply amps_escape_char | exact IH].
Qed.

(** ** Lines and documents *)

Lemma plain_well_escaped (s : str) : plain s = true -> well_escaped s.
Proof.
  unfold plain. rewrite forallb_forall. intros H. split.
  - apply amps_none. intros F. apply H in F.
    now rewrite N.eqb_refl in F.
  - intros F. apply H in F. rewrite N.eqb_refl in F.
    now rewrite andb_false_r in F.
Qed.

Lemma well_escaped_app (a b : str) :
  well_escaped a -> well_escaped b -> well_escaped (a ++ b).
Proof.
  intros [Ha1 Ha2] [Hb1 Hb2]. split; [now apply amps_app|].
  rewrite in_app_iff. tauto.
Qed.

Lemma well_escaped_escape_xml (s : str) : well_escaped (_escape_xml s).
Proof.
  split; [apply amps_escape_xml|].
  apply markup_chars_nil_not_in;
    [apply markup_chars_escape_xml | reflexivity].
Qed.

Lemma decimal_plain (s : str) : forallb is_decimal s = true -> plain s = true.
Proof.
  unfold plain. rewrite !forallb_forall. intros H c Hc.
  apply H, decimal_lower in Hc.
  apply andb_true_iff. split; apply negb_true_iff, N.eqb_neq;
    unfold amp, apos; lia.
Qed.

Lemma uint_plain (d : Decimal.uint) :
  plain (lit (NilEmpty.string_of_uint d)) = true.
Proof. induction d; cbn; auto. Qed.

Lemma str_of_nat_plain (n : nat) : plain (str_of_nat n) = true.
Proof.
  unfold str_of_nat, NilZero.string_of_uint.
  destruct (Nat.to_uint n) eqn:E; try (rewrite <- E; apply uint_plain).
  reflexivity.
Qed.

Lemma well_escaped_join (sep : str) (ls : list str) :
  well_escaped sep -> Forall well_escaped ls -> well_escaped (join sep ls).
Proof.
  intros Hs H. induction H as [|l ls Hl _ IH]; cbn.
  - now apply plain_well_escaped.
  - destruct ls as [|l' ls]; [exact Hl|].
    apply well_escaped_app; [exact Hl|].
    apply well_escaped_app; [exact Hs | exact IH].
Qed.

Lemma heading_element_well_escaped (level : nat) (t : str) :
  well_escaped (heading_element level t).
Proof.
  unfold heading_element.
  repeat apply well_escaped_app;
    try apply well_escaped_escape_xml;
    apply plain_well_escaped;
    try apply str_of_nat_plain; try reflexivity.
  destruct level as [|[|[|]]]; reflexivity.
Qed.

Lemma bullet_item_well_escaped (t : str) : well_escaped (bullet_item t).
Proof.
  unfold bullet_item.
  repeat apply well_escaped_app;
    try apply well_escaped_escape_xml;
    apply plain_well_escaped; reflexivity.
Qed.

Lemma numbered_item_well_escaped (number t : str) :
  forallb is_decimal number = true -> well_escaped (numbered_item number t).
Proof.
  intros H. unfold numbered_item.
  repeat apply well_escaped_app;
    try apply well_escaped_escape_xml;
    apply plain_well_escaped; try reflexivity.
  now apply decimal_plain.
Qed.

Lemma paragraph_element_well_escaped (t : str) :
  well_escaped (paragraph_element t).
Proof.
  unfold paragraph_element.
  repeat apply well_escaped_app;
    try apply well_escaped_escape_xml;
    apply plain_well_escaped; reflexivity.
Qed.

(** The number of an ordered item is a run of decimal digits. *)
Lemma classify_ordinal_decimal (line number t : str) :
  Flow.classify line = OrderedItem number t ->
  forallb is_decimal number = true.
Proof.
  unfold Flow.classify. destruct line as [|c l]; [discriminate|].
  destruct (startswith [hash] (c :: l)); [discriminate|].
  destruct (starts_with_bullet _); [discriminate|].
  destruct (re_ordered _) as [[[n ws] rest]|] eqn:E; [|discriminate].
  apply re_ordered_shape in E as (m & _ & _ & Hd & _).
  destruct (re_item_text ws rest); [|discriminate].
  intros H. injection H as <- _. exact Hd.
Qed.

Lemma content_lines_append (st : emitter) (l : str) :
  content_lines (append st l) = content_lines st ++ [l].
Proof. reflexivity. Qed.

Lemma Forall_snoc (P : str -> Prop) (ls : list str) (l : str) :
  Forall P ls -> P l -> Forall P (ls ++ [l]).
Proof. intros H1 H2. apply Forall_app. split; [exact H1 | now constructor]. Qed.

Lemma feed_well_escaped (st : emitter) (raw : str) :
  Forall well_escaped (content_lines st) ->
  Forall well_escaped (content_lines (feed st raw)).
Proof.
  intros H. unfold feed.
  assert (Hleave : Forall well_escaped (content_lines (leave_list st))).
  { unfold leave_list. now destruct (in_list st). }
  assert (Henter : forall tag, plain tag = true ->
            Forall well_escaped (content_lines (enter_list tag st))).
  { intros tag Ht. unfold enter_list. destruct (in_list st); [exact H|].
    cbn. apply Forall_snoc; [exact H | now apply plain_well_escaped]. }
  assert (Hclose : Forall well_escaped (content_lines (close_list st))).
  { unfold close_list. destruct (in_list st); [|exact H].
    cbn. apply Forall_snoc; [exact H | now apply plain_well_escaped]. }
  destruct (Flow.classify (rstrip raw)) eqn:E;
    try rewrite content_lines_append; try apply Forall_snoc; auto.
  - now apply plain_well_escaped.
  - apply heading_element_well_escaped.
  - apply bullet_item_well_escaped.
  - apply numbered_item_well_escaped.
    now apply classify_ordinal_decimal in E.
  - apply paragraph_element_well_escaped.
Qed.

Lemma fold_feed_well_escaped (raws : list str) :
  forall st, Forall well_escaped (content_lines st) ->
    Forall well_escaped (content_lines (fold_left feed raws st)).
Proof.
  induction raws as [|raw raws IH]; intros st H; cbn; [exact H|].
  apply IH, feed_well_escaped, H.
Qed.

Lemma emitted_well_escaped (text : str) :
  Forall well_escaped (emitted text).
Proof.
  unfold emitted.
  set (st := fold_left feed _ start).
  assert (H : Forall well_escaped (content_lines st)).
  { apply fold_feed_well_escaped. constructor. }
  destruct (in_list st); [|exact H].
  rewrite content_lines_append.
  apply Forall_snoc; [exact H | now apply plain_well_escaped].
Qed.

Lemma markdown_to_odt_content_well_escaped (text : str) :
  well_escaped (_markdown_to_odt_content text).
Proof.
  apply well_escaped_join;
    [now apply plain_well_escaped | apply emitted_well_escaped].
Qed.

Lemma content_xml_well_escaped
  (title university_name name registration_number instructor_name
     semester content_body : str) :
  well_escaped content_body ->
  well_escaped
    (content_xml title university_name name registration_number
       instructor_name semester content_body).
Proof.
  intros H. unfold content_xml.
  repeat apply well_escaped_app;
    try apply well_escaped_escape_xml; try exact H;
    apply plain_well_escaped; vm_compute; reflexivity.
Qed.

Lemma no_markup_char_in_escape_xml (s : str) (c : char) :
  is_markup_char c = true -> ~ In c (_escape_xml s).
Proof. apply markup_chars_nil_not_in, markup_chars_escape_xml. Qed.

(** ** The angle brackets and quotes of the output *)

Lemma in_ranges_gap (lo hi : N) (rs : list (N * N)) (c : char) :
  forallb (fun r => (snd r <=? lo) || (hi <=? fst r)) rs = true ->
  in_ranges rs c = true -> c <= lo \/ hi <= c.
Proof.
  unfold in_ranges.
  induction rs as [|r rs IH]; cbn; [discriminate|].
  rewrite andb_true_iff, !orb_true_iff, andb_true_iff, !N.leb_le.
  intros [H1 H2] [[H3 H4]|H]; [lia | now apply IH].
Qed.

Lemma decimal_no_markup (s : str) :
  forallb is_decimal s = true -> markup_chars s = [].
Proof.
  induction s as [|c s IH]; [reflexivity|].
  cbn [forallb]. rewrite andb_true_iff. intros [Hc Hs].
  unfold markup_chars. cbn [filter]. fold (markup_chars s).
  rewrite (IH Hs).
  pose proof (decimal_lower c Hc) as L.
  assert (G : c <= 57 \/ 1632 <= c).
  { apply (@in_ranges_gap 57 1632 decimal_ranges);
      [vm_compute; reflexivity | exact Hc]. }
  assert (E : is_markup_char c = false).
  { unfold is_markup_char, lt, gt, dquote, apos.
    repeat (apply orb_false_iff; split); apply N.eqb_neq; lia. }
  now rewrite E.
Qed.

Lemma uint_no_markup (d : Decimal.uint) :
  markup_chars (lit (NilEmpty.string_of_uint d)) = [].
Proof. induction d; cbn; auto. Qed.

Lemma str_of_nat_no_markup (n : nat) : markup_chars (str_of_nat n) = [].
Proof.
  unfold str_of_nat, NilZero.string_of_uint.
  destruct (Nat.to_uint n) eqn:E; try (rewrite <- E; apply uint_no_markup).
  reflexivity.
Qed.

Lemma heading_element_skeleton (level : nat) (t : str) :
  markup_chars (heading_element level t) = xml "<````><>".
Proof.
  unfold heading_element.
  rewrite !markup_chars_app, markup_chars_escape_xml, str_of_nat_no_markup.
  destruct level as [|[|[|level]]]; reflexivity.
Qed.

Lemma bullet_item_skeleton (t : str) :
  markup_chars (bullet_item t) = xml "<><``><><>".
Proof.
  unfold bullet_item.
  now rewrite !markup_chars_app, markup_chars_escape_xml.
Qed.

Lemma numbered_item_skeleton (number t : str) :
  forallb is_decimal number = true ->
  markup_chars (numbered_item number t) = xml "<><``><><>".
Proof.
  intros H. unfold numbered_item.
  now rewrite !markup_chars_app, markup_chars_escape_xml,
    (decimal_no_markup _ H).
Qed.

Lemma paragraph_element_skeleton (t : str) :
  markup_chars (paragraph_element t) = xml "<``><>".
Proof.
  unfold paragraph_element.
  now rewrite !markup_chars_app, markup_chars_escape_xml.
Qed.

Lemma feed_bare (st : emitter) (raw : str) :
  Forall bare (content_lines st) ->
  Forall bare (content_lines (feed st raw)).
Proof.
  intros H. unfold feed.
  assert (Hleave : Forall bare (content_lines (leave_list st))).
  { unfold leave_list. now destruct (in_list st). }
  assert (Henter1 : Forall bare (content_lines (enter_list list_open_L1 st))).
  { unfold enter_list. destruct (in_list st); [exact H|].
    cbn [content_lines]. apply Forall_snoc; [exact H|].
    right. right. now left. }
  assert (Henter2 : Forall bare (content_lines (enter_list list_open_L2 st))).
  { unfold enter_list. destruct (in_list st); [exact H|].
    cbn [content_lines]. apply Forall_snoc; [exact H|].
    right. right. now left. }
  assert (Hclose : Forall bare (content_lines (close_list st))).
  { unfold close_list. destruct (in_list st); [|exact H].
    cbn [content_lines]. apply Forall_snoc; [exact H|].
    right. right. right. now left. }
  destruct (Flow.classify (rstrip raw)) eqn:E;
    try rewrite content_lines_append; try apply Forall_snoc; auto;
    unfold bare.
  - right. right. now left.
  - rewrite heading_element_skeleton. now left.
  - rewrite bullet_item_skeleton. do 4 right. now left.
  - rewrite numbered_item_skeleton by now apply classify_ordinal_decimal in E.
    do 4 right. now left.
  - rewrite paragraph_element_skeleton. right. now left.
Qed.

Lemma emitted_bare (text : str) : Forall bare (emitted text).
Proof.
  unfold emitted.
  set (raws := split nl (strip text)).
  assert (H : forall st, Forall bare (content_lines st) ->
                Forall bare (content_lines (fold_left feed raws st))).
  { induction raws as [|raw raws IH]; intros st Hst; cbn; [exact Hst|].
    apply IH, feed_bare, Hst. }
  specialize (H start (Forall_nil _)).
  destruct (in_list (fold_left feed raws start)); [|exact H].
  rewrite content_lines_append. apply Forall_snoc; [exact H|].
  right. right. right. now left.
Qed.

(** ** The elements of the output *)

Lemma elements_snoc_tag (ls : list str) (l : str) :
  is_list_tag l = true -> elements (ls ++ [l]) = elements ls.
Proof.
  intros H. unfold elements. rewrite filter_app. cbn [filter].
  rewrite H. cbn [negb]. apply app_nil_r.
Qed.

Lemma elements_snoc_element (ls : list str) (l : str) :
  is_list_tag l = false -> elements (ls ++ [l]) = elements ls ++ [l].
Proof.
  intros H. unfold elements. rewrite filter_app. cbn [filter].
  now rewrite H.
Qed.

Lemma heading_element_no_tag (level : nat) (t : str) :
  is_list_tag (heading_element level t) = false.
Proof. reflexivity. Qed.

Lemma bullet_item_no_tag (t : str) : is_list_tag (bullet_item t) = false.
Proof. reflexivity. Qed.

Lemma numbered_item_no_tag (n t : str) :
  is_list_tag (numbered_item n t) = false.
Proof. reflexivity. Qed.

Lemma paragraph_element_no_tag (t : str) :
  is_list_tag (paragraph_element t) = false.
Proof. reflexivity. Qed.

Lemma p_break_no_tag : is_list_tag p_break = false.
Proof. reflexivity. Qed.

Lemma list_open_L1_tag : is_list_tag list_open_L1 = true.
Proof. reflexivity. Qed.

Lemma list_open_L2_tag : is_list_tag list_open_L2 = true.
Proof. reflexivity. Qed.

Lemma list_close_tag : is_list_tag list_close = true.
Proof. reflexivity. Qed.

(** One turn of the loop adds the element of the line, and tags. *)
Lemma feed_elements (st : emitter) (raw : str) :
  elements (content_lines (feed st raw))
  = elements (content_lines st) ++ element_of (Flow.classify (rstrip raw)).
Proof.
  unfold feed, leave_list, enter_list, close_list, append.
  destruct (Flow.classify (rstrip raw)) as [|level t|t|n t| |t];
    destruct (in_list st); cbn [content_lines element_of].
  - apply (@elements_snoc_element _ _ p_break_no_tag).
  - apply (@elements_snoc_element _ _ p_break_no_tag).
  - apply (@elements_snoc_element _ _ (heading_element_no_tag level t)).
  - apply (@elements_snoc_element _ _ (heading_element_no_tag level t)).
  - apply (@elements_snoc_element _ _ (bullet_item_no_tag t)).
  - rewrite (@elements_snoc_element _ _ (bullet_item_no_tag t)).
    now rewrite (@elements_snoc_tag _ _ list_open_L1_tag).
  - apply (@elements_snoc_element _ _ (numbered_item_no_tag n t)).
  - rewrite (@elements_snoc_element _ _ (numbered_item_no_tag n t)).
    now rewrite (@elements_snoc_tag _ _ list_open_L2_tag).
  - now rewrite app_nil_r.
  - rewrite (@elements_snoc_tag _ _ list_open_L2_tag).
    now rewrite app_nil_r.
  - rewrite (@elements_snoc_element _ _ (paragraph_element_no_tag t)).
    now rewrite (@elements_snoc_tag _ _ list_close_tag).
  - apply (@elements_snoc_element _ _ (paragraph_element_no_tag t)).
Qed.

Lemma fold_feed_elements (raws : list str) :
  forall st,
    elements (content_lines (fold_left feed raws st))
    = elements (content_lines st)
      ++ flat_map (fun raw => element_of (Flow.classify (rstrip raw))) raws.
Proof.
  induction raws as [|raw raws IH]; intros st; cbn [fold_left flat_map].
  - now rewrite app_nil_r.
  - now rewrite IH, feed_elements, <- app_assoc.
Qed.

Lemma flat_map_map (f : str -> list str) (g : str -> str) (l : list str) :
  flat_map f (map g l) = flat_map (fun x => f (g x)) l.
Proof.
  induction l as [|x l IH]; [reflexivity|]. cbn. now rewrite IH.
Qed.

Lemma emitted_elements (text : str) :
  elements (emitted text)
  = flat_map (fun line => element_of (Flow.classify line)) (source_lines text).
Proof.
  unfold emitted, source_lines. rewrite flat_map_map.
  set (raws := split nl (strip text)).
  pose proof (fold_feed_elements raws start) as H.
  change (elements (content_lines start)) with (@nil str) in H.
  cbn [app] in H.
  destruct (in_list (fold_left feed raws start)); [|exact H].
  rewrite content_lines_append, (@elements_snoc_tag _ _ list_close_tag).
  exact H.
Qed.

(** C10.  [_escape_xml] replaces each character on its own, once: its
    output holds none of the two angle brackets and the two quotes, and
    every ampersand in it begins one of the five entities.  Every payload
    of the flow track goes through it.  Each heading, item and paragraph
    element is a fixed opening and a fixed closing markup around the
    escaped payload, and the elements of the output are, line by line,
    those of the classified lines of the text; [content.xml] is eight
    fixed pieces of markup around the six escaped fields of the cover
    page and the body, which is the output of the emitter.  So every line of the output has the angle
    brackets and quotes of its markup and no other, whatever the
    payload, and in every line, as in the whole of [content.xml], every
    ampersand begins an entity and there is no apostrophe. *)
Theorem escape_xml_guards_every_payload :
  (forall s, _escape_xml s = flat_map escape_char s) /\
  (forall s,
     ~ In lt (_escape_xml s) /\ ~ In gt (_escape_xml s) /\
     ~ In dquote (_escape_xml s) /\ ~ In apos (_escape_xml s)) /\
  (forall s, amps_begin_entities (_escape_xml s)) /\
  (forall level t,
     markup_chars (heading_element level t)
     = markup_chars (heading_element level [])) /\
  (forall t, markup_chars (bullet_item t) = markup_chars (bullet_item [])) /\
  (forall n t,
     markup_chars (numbered_item n t) = markup_chars (numbered_item n [])) /\
  (forall t,
     markup_chars (paragraph_element t)
     = markup_chars (paragraph_element [])) /\
  (forall title university_name name registration_number instructor_name
          semester body,
     markup_chars
       (content_xml title university_name name registration_number
          instructor_name semester body)
     = markup_chars (content_xml [] [] [] [] [] [] body)) /\
  (forall text, Forall well_escaped (emitted text)) /\
  (forall name registration_number instructor_name semester
          university_name assignment_text title,
     well_escaped
       (odt_content name registration_number instructor_name semester
          university_name assignment_text title)) /\
  (forall level, exists pre post, forall t,
     heading_element level t = pre ++ _escape_xml t ++ post) /\
  (exists pre post, forall t,
     bullet_item t = pre ++ _escape_xml t ++ post) /\
  (forall n, exists pre post, forall t,
     numbered_item n t = pre ++ _escape_xml t ++ post) /\
  (exists pre post, forall t,
     paragraph_element t = pre ++ _escape_xml t ++ post) /\
  (forall text,
     elements (emitted text)
     = flat_map (fun line => element_of (Flow.classify line))
         (source_lines text)) /\
  (forall text,
     Forall (fun l => In (markup_chars l) skeletons) (emitted text)) /\
  (exists c0 c1 c2 c3 c4 c5 c6 c7,
     (plain c0 = true /\ plain c1 = true /\ plain c2 = true
      /\ plain c3 = true /\ plain c4 = true /\ plain c5 = true
      /\ plain c6 = true /\ plain c7 = true) /\
     (forall title university_name name registration_number
             instructor_name semester body,
       content_xml title university_name name registration_number
         instructor_name semester body
       = c0 ++ _escape_xml title ++ c1 ++ _escape_xml university_name
         ++ c2 ++ _escape_xml name ++ c3
         ++ _escape_xml registration_number ++ c4
         ++ _escape_xml instructor_name ++ c5 ++ _escape_xml semester
         ++ c6 ++ body ++ c7) /\
     forall name registration_number instructor_name semester
            university_name assignment_text title,
       odt_content name registration_number instructor_name semester
         university_name assignment_text title
       = c0 ++ _escape_xml title ++ c1 ++ _escape_xml university_name
         ++ c2 ++ _escape_xml name ++ c3
         ++ _escape_xml registration_number ++ c4
         ++ _escape_xml instructor_name ++ c5 ++ _escape_xml semester
         ++ c6 ++ _markdown_to_odt_content assignment_text ++ c7) /\
  (forall name registration_number instructor_name semester
          university_name assignment_text title,
     markup_chars
       (odt_content name registration_number instructor_name semester
          university_name assignment_text title)
     = markup_chars (odt_content [] [] [] [] [] assignment_text [])).
Proof.
  split; [exact escape_xml_pointwise|].
  split.
  { intros s. repeat split; now apply no_markup_char_in_escape_xml. }
  split; [exact amps_escape_xml|].
  split.
  { intros level t. unfold heading_element.
    now rewrite !markup_chars_app, !markup_chars_escape_xml. }
  split.
  { intros t. unfold bullet_item.
    now rewrite !markup_chars_app, !markup_chars_escape_xml. }
  split.
  { intros n t. unfold numbered_item.
    now rewrite !markup_chars_app, !markup_chars_escape_xml. }
  split.
  { intros t. unfold paragraph_element.
    now rewrite !markup_chars_app, !markup_chars_escape_xml. }
  split.
  { intros. unfold content_xml.
    now rewrite !markup_chars_app, !markup_chars_escape_xml. }
  split; [exact emitted_well_escaped|].
  split.
  { intros. unfold odt_content.
    apply content_xml_well_escaped, markdown_to_odt_content_well_escaped. }
  split.
  { intros level.
    exists (xml "<text:h text:style-name=`" ++ heading_style level
            ++ xml "` text:outline-level=`" ++ str_of_nat level
            ++ xml "`>"), (xml "</text:h>").
    intros t. unfold heading_element. now rewrite <- !app_assoc. }
  split.
  { exists (item_open ++ [bullet; 32%N]), item_close.
    intros t. unfold bullet_item. now rewrite <- !app_assoc. }
  split.
  { intros n. exists (item_open ++ n ++ lit ". "), item_close.
    intros t. unfold numbered_item. now rewrite <- !app_assoc. }
  split.
  { unfold paragraph_element. do 2 eexists. intros t. reflexivity. }
  split; [exact emitted_elements|].
  split; [exact emitted_bare|].
  split.
  { do 8 eexists. split; [|split].
    2:{ intros. unfold content_xml. reflexivity. }
    2:{ intros. unfold odt_content, content_xml. reflexivity. }
    repeat split; vm_compute; reflexivity. }
  intros. unfold odt_content, content_xml.
  now rewrite !markup_chars_app, !markup_chars_escape_xml.
Qed.

End Escaping.

(* ================================================================== *)
(** * Word wrapping *)
(* ================================================================== *)

Section Wrapping.

Import Pdf.

Lemma join_app (sep : str) (a b : list str) :
  a <> [] -> b <> [] ->
  join sep (a ++ b) = join sep a ++ sep ++ join sep b.
Proof.
  intros Ha Hb. induction a as [|x a IH]; [congruence|].
  destruct a as [|y a].
  - cbn. destruct b; [congruence | reflexivity].
  - change (join sep ((x :: y :: a) ++ b))
      with (x ++ sep ++ join sep ((y :: a) ++ b)).
    rewrite IH by discriminate.
    change (join sep (x :: y :: a)) with (x ++ sep ++ join sep (y :: a)).
    now rewrite <- !app_assoc.
Qed.

Lemma join_groups (sep : str) (groups : list (list str)) :
  Forall (fun g => g <> []) groups ->
  join sep (map (join sep) groups) = join sep (concat groups).
Proof.
  induction 1 as [|g gs Hg Hgs IH]; [reflexivity|].
  destruct gs as [|g' gs].
  - cbn. now rewrite app_nil_r.
  - change (join sep (map (join sep) (g :: g' :: gs)))
      with (join sep g ++ sep ++ join sep (map (join sep) (g' :: gs))).
    rewrite IH. cbn [concat].
    rewrite (@join_app sep g (g' ++ concat gs)); auto.
    inversion Hgs as [|? ? Hg' _]; subst.
    destruct g'; [congruence | discriminate].
Qed.

Lemma len_app (a b : str) : len (a ++ b) = (len a + len b)%Z.
Proof. unfold len. rewrite length_app. lia. Qed.

Lemma len_join (ls : list str) :
  ls <> [] ->
  len (join [32%N] ls) = (total_len ls + (Z.of_nat (length ls) - 1))%Z.
Proof.
  induction ls as [|l ls IH]; [congruence|]. intros _.
  destruct ls as [|l' ls].
  - cbn. lia.
  - change (join [32%N] (l :: l' :: ls))
      with (l ++ [32%N] ++ join [32%N] (l' :: ls)).
    rewrite !len_app, IH by discriminate.
    cbn [total_len fold_right length]. unfold len at 2. cbn [length]. lia.
Qed.

(** The words of [split] are not empty. *)
Lemma split_ws_from_nonempty (s : str) :
  forall cur, Forall (fun w => w <> []) (split_ws_from cur s).
Proof.
  assert (R : forall (c : char) cur, rev (c :: cur) <> []).
  { intros c cur E. apply (f_equal (@length char)) in E.
    rewrite length_rev in E. discriminate. }
  induction s as [|c s IH]; intros cur; cbn.
  - destruct cur; repeat constructor. apply R.
  - destruct (is_space c); [|apply IH].
    destruct cur; [apply IH|]. constructor; [apply R | apply IH].
Qed.

Lemma split_ws_nonempty (s : str) : Forall (fun w => w <> []) (split_ws s).
Proof. apply split_ws_from_nonempty. Qed.

Lemma split_ws_spaces (s : str) :
  forallb is_space s = true -> split_ws s = [].
Proof.
  unfold split_ws. induction s as [|c s IH]; cbn; [reflexivity|].
  destruct (is_space c); [exact IH | discriminate].
Qed.

(** ** The loop keeps the words and the budget *)

Lemma wrap_word_so_far (n : Z) (done : list str) (st : wrap_state) (w : str) :
  wrapped_so_far n done st ->
  wrapped_so_far n (done ++ [w]) (wrap_word n st w).
Proof.
  intros (groups & Hl & Hg & Hd & Hc & Hn). unfold wrap_word.
  destruct (Z.leb_spec
              (current_length st
               + match current_line st with [] => 0 | _ :: _ => 1 end
               + len w) n) as [Hle|Hgt].
  - (* the word goes on the line in progress *)
    exists groups. cbn [lines current_line current_length].
    assert (E : len (join [32%N] (current_line st ++ [w]))
                = (current_length st
                   + match current_line st with [] => 0 | _ :: _ => 1 end
                   + len w)%Z).
    { rewrite Hn. destruct (current_line st) as [|x cur].
      - cbn. lia.
      - rewrite join_app by discriminate. rewrite !len_app.
        cbn [join]. unfold len at 2. cbn [length]. lia. }
    repeat split; auto.
    + now rewrite app_assoc, Hd.
    + right. left. lia.
  - (* the line in progress is closed and the word starts a line *)
    destruct (current_line st) as [|x cur] eqn:Ecur.
    + exists groups. cbn [lines current_line current_length flush].
      repeat split; auto.
      * rewrite app_nil_r in Hd. now rewrite Hd.
      * right. right. now exists w.
    + exists (groups ++ [x :: cur]).
      cbn [lines current_line current_length flush].
      repeat split.
      * now rewrite map_app, Hl.
      * apply Forall_app. split; [exact Hg|].
        constructor; [|constructor]. split; [discriminate|].
        destruct Hc as [Hc|Hc]; [discriminate | exact Hc].
      * rewrite concat_app. cbn. now rewrite app_nil_r, Hd.
      * right. right. now exists w.
Qed.

Lemma fold_wrap_word_so_far (n : Z) (ws : list str) :
  forall done st,
    wrapped_so_far n done st ->
    wrapped_so_far n (done ++ ws) (fold_left (wrap_word n) ws st).
Proof.
  induction ws as [|w ws IH]; intros done st H; cbn.
  - now rewrite app_nil_r.
  - replace (done ++ w :: ws) with ((done ++ [w]) ++ ws)
      by now rewrite <- app_assoc.
    apply IH, wrap_word_so_far, H.
Qed.

(** The lines of the loop, once the last one is closed, are groups of
    the words, in order, each fitting the budget. *)
Lemma wrap_loop_groups (n : Z) (ws : list str) :
  let st :=
    fold_left (wrap_word n) ws
      {| lines := []; current_line := []; current_length := 0 |} in
  exists groups,
    flush (lines st) (current_line st) = map (join [32%N]) groups
    /\ Forall (fun g => g <> [] /\ fits n g) groups
    /\ concat groups = ws.
Proof.
  intros st.
  assert (H : wrapped_so_far n ([] ++ ws) st).
  { apply fold_wrap_word_so_far. exists []. cbn. repeat split; auto. }
  destruct H as (groups & Hl & Hg & Hd & Hc & _). cbn [app] in Hd.
  destruct (current_line st) as [|x cur] eqn:Ecur.
  - exists groups. cbn. rewrite app_nil_r in Hd. auto.
  - exists (groups ++ [x :: cur]). cbn [flush]. repeat split.
    + now rewrite map_app, Hl.
    + apply Forall_app. split; [exact Hg|].
      constructor; [|constructor]. split; [discriminate|].
      destruct Hc as [Hc|Hc]; [discriminate | exact Hc].
    + rewrite concat_app. cbn. now rewrite app_nil_r.
Qed.

(** What [wrap_text_simple] returns: the one empty line, for a text with
    no word, or groups of the words of the text. *)
Lemma wrap_text_simple_groups (text : str) (n : Z) :
  (wrap_text_simple text n = [[]] /\ split_ws text = [])
  \/ exists groups,
       groups <> []
       /\ wrap_text_simple text n = map (join [32%N]) groups
       /\ Forall (fun g => g <> [] /\ fits n g) groups
       /\ concat groups = split_ws text.
Proof.
  unfold wrap_text_simple.
  destruct (strip text) as [|c t] eqn:Es.
  - left. split; [reflexivity|].
    now apply split_ws_spaces, strip_nil_all.
  - destruct (wrap_loop_groups n (split_ws text)) as (groups & Hf & Hg & Hc).
    cbv zeta in Hf. rewrite Hf.
    destruct groups as [|g gs].
    + left. cbn. now split.
    + right. exists (g :: gs). repeat split; auto. discriminate.
Qed.

(** The claim of C6 fails on a text with a run of spaces: the lines,
    even with one separator counted for each word of the text, are
    shorter than the text, whose run of spaces [split] drops. *)
Lemma wrapped_lines_shorter_than_text :
  let text := lit "a          b" in
  wrap_text_simple text 80 = [lit "a b"] /\
  (total_len (wrap_text_simple text 80) + Z.of_nat (length (split_ws text))
   < len text)%Z.
Proof. vm_compute. split; reflexivity. Qed.

(** C6, amended.  For a budget of at least one character, the lines of
    [wrap_text_simple], joined by single spaces, are the words of the
    text joined by single spaces; so their total length, with one
    separator counted between two consecutive lines, is the length of the
    text with its whitespace normalised (and of the text itself when it
    is already normalised).  No line is longer than the budget, except a
    line that is a single word of the text longer than the budget. *)
Theorem wrap_keeps_words_within_budget (text : str) (n : Z) :
  (1 <= n)%Z ->
  join [32%N] (wrap_text_simple text n) = normalised text /\
  (total_len (wrap_text_simple text n)
   + (Z.of_nat (length (wrap_text_simple text n)) - 1)
   = len (normalised text))%Z /\
  (normalised text = text ->
   (total_len (wrap_text_simple text n)
    + (Z.of_nat (length (wrap_text_simple text n)) - 1)
    = len text)%Z) /\
  (forall f, In f (wrap_text_simple text n) ->
     (len f <= n)%Z \/ ((n < len f)%Z /\ In f (split_ws text))).
Proof.
  intros Hn. unfold normalised.
  assert (J : join [32%N] (wrap_text_simple text n)
              = join [32%N] (split_ws text)).
  { destruct (wrap_text_simple_groups text n)
      as [[-> ->]|(groups & _ & -> & Hg & <-)]; [reflexivity|].
    apply join_groups. eapply Forall_impl; [|exact Hg]. now intros g [H _]. }
  assert (L : (total_len (wrap_text_simple text n)
               + (Z.of_nat (length (wrap_text_simple text n)) - 1)
               = len (join [32%N] (split_ws text)))%Z).
  { rewrite <- J. symmetry. apply len_join.
    destruct (wrap_text_simple_groups text n)
      as [[-> _]|(groups & Hne & -> & _)]; [discriminate|].
    destruct groups; [congruence | discriminate]. }
  split; [exact J|]. split; [exact L|]. split.
  { intros E. now rewrite <- E at 3. }
  intros f Hf.
  destruct (Z.le_gt_cases (len f) n) as [Hle|Hgt]; [now left|].
  right. split; [lia|].
  destruct (wrap_text_simple_groups text n)
    as [[E _]|(groups & _ & E & Hg & <-)]; rewrite E in Hf.
  - destruct Hf as [<-|[]]. cbn in Hgt. lia.
  - apply in_map_iff in Hf as (g & <- & Hin).
    rewrite Forall_forall in Hg. destruct (Hg g Hin) as [_ [Hfit|[w ->]]].
    + lia.
    + cbn. apply in_concat. exists [w]. split; [exact Hin | now left].
Qed.

Lemma wrap_keeps_words_within_budget_witness :
  join [32%N] (wrap_text_simple (lit " aa bb  cccccccc d e ") 5)
  = normalised (lit " aa bb  cccccccc d e ").
Proof.
  apply (@wrap_keeps_words_within_budget (lit " aa bb  cccccccc d e ") 5).
  lia.
Defined.

(** ** The budgets that the program derives *)

(** The budgets that [create_assignment_pdf] derives for the styles of
    [parse_lines] are between 60 and 90 characters. *)
Lemma parsed_budget_bounds (b : Block) (p : styled) :
  parsed_of b = Some p ->
  exists n, max_chars_of (snd p) = Some n /\ (60 <= n <= 90)%Z.
Proof.
  destruct b as [|level t|t|number t| |t]; cbn; intros H;
    try discriminate; injection H as <-; cbn [snd].
  - exists 90%Z. split; [vm_compute; reflexivity | lia].
  - destruct level as [|[|[|level]]].
    + exists 77%Z. split; [vm_compute; reflexivity | lia].
    + exists 60%Z. split; [vm_compute; reflexivity | lia].
    + exists 67%Z. split; [vm_compute; reflexivity | lia].
    + exists 77%Z. split; [vm_compute; reflexivity | lia].
  - exists 86%Z. split; [vm_compute; reflexivity | lia].
  - exists 86%Z. split; [vm_compute; reflexivity | lia].
  - exists 90%Z. split; [vm_compute; reflexivity | lia].
Qed.

(** Every entry of [parse_lines] is what a line of the text is parsed
    as. *)
Lemma parse_lines_parsed (text : str) (p : styled) :
  In p (parse_lines text) ->
  exists line,
    In line (source_lines text) /\ parsed_of (Pdf.classify line) = Some p.
Proof.
  unfold parse_lines. rewrite in_flat_map. intros (raw & Hraw & Hp).
  exists (rstrip raw). split.
  - unfold source_lines. now apply in_map.
  - destruct (parsed_of (Pdf.classify (rstrip raw))) as [q|];
      [|destruct Hp].
    destruct Hp as [->|[]]. reflexivity.
Qed.

(** C7.  Every styled block that [parse_lines] builds, for whatever
    text, has a derived budget between 60 and 90 characters: the margins
    are constants and the font sizes are 12, 14, 16 and 18.  So the case
    of the claim, a derived budget below 1, is the case of no block of
    the program, and the claim holds of every block: none is wrapped
    with a budget below 1 without an error. *)
Theorem derived_budget_is_never_below_one (text : str) (p : styled) :
  In p (parse_lines text) ->
  exists n,
    max_chars_of (snd p) = Some n /\ (60 <= n <= 90)%Z
    /\ ((n < 1)%Z -> wrap_parsed p = None).
Proof.
  intros H. apply parse_lines_parsed in H as (line & _ & H).
  apply parsed_budget_bounds in H as (n & Hn & Hb).
  exists n. repeat split; try exact Hn; try lia.
Qed.

Lemma derived_budget_is_never_below_one_witness :
  exists n,
    max_chars_of (mk_style 18 bold 0.0 2.0) = Some n /\ (60 <= n <= 90)%Z
    /\ ((n < 1)%Z -> wrap_parsed (lit "T", mk_style 18 bold 0.0 2.0) = None).
Proof.
  apply (@derived_budget_is_never_below_one (lit "# T")
           (lit "T", mk_style 18 bold 0.0 2.0)).
  left. reflexivity.
Defined.

End Wrapping.

(* ================================================================== *)
(** * Pagination *)
(* ================================================================== *)

Section Pagination.

Import Pdf.

Lemma all_lines_app (ps qs : list Page) :
  all_lines (ps ++ qs) = all_lines ps ++ all_lines qs.
Proof.
  unfold all_lines. now rewrite map_app, concat_app.
Qed.

Lemma held_render_page (st : paginator) :
  all_lines (rendered (render_page st)) = held st.
Proof.
  unfold held, render_page; cbn [rendered].
  rewrite all_lines_app. unfold all_lines at 2; cbn.
  now rewrite app_nil_r.
Qed.

(** Placing a line adds it after everything held so far, whether or not
    a page is closed on the way. *)
Lemma held_place (st : paginator) (l : styled) :
  held (place st l) = held st ++ [l].
Proof.
  unfold place.
  destruct (PrimFloat.ltb _ _).
  - destruct (current_page_content st) as [|x xs] eqn:E.
    + unfold held; cbn [rendered current_page_content].
      rewrite E, app_nil_r. reflexivity.
    + unfold held at 1; cbn [rendered current_page_content render_page].
      rewrite all_lines_app. unfold all_lines at 2; cbn.
      unfold held. now rewrite E, app_nil_r.
  - unfold held; cbn [rendered current_page_content].
    now rewrite app_assoc.
Qed.

Lemma held_fold_place (ls : list styled) :
  forall st, held (fold_left place ls st) = held st ++ ls.
Proof.
  induction ls as [|l ls IH]; intros st; cbn.
  - now rewrite app_nil_r.
  - rewrite IH, held_place, <- app_assoc. reflexivity.
Qed.

(** C5.  Whatever lines the pagination loop is given, the lines of the
    pages it renders, taken page after page and top to bottom, are those
    lines again: none is lost, repeated or moved. *)
Theorem paginate_keeps_every_line (wrapped : list styled) :
  all_lines (paginate wrapped) = wrapped.
Proof.
  unfold paginate.
  set (st := fold_left place wrapped _).
  assert (H : held st = wrapped).
  { subst st. rewrite held_fold_place. reflexivity. }
  destruct (current_page_content st) as [|x xs] eqn:E.
  - unfold held in H. now rewrite E, app_nil_r in H.
  - now rewrite held_render_page.
Qed.

End Pagination.

(* ================================================================== *)
(** * The list containers of the flow track *)
(* ================================================================== *)

Section ListContainers.

Import Flow.

(** C1.  On a list item followed by a blank line, and on a list item
    followed by a heading, the output opens a list container and never
    closes it: the blank-line and heading branches drop the flag without
    writing the closing tag. *)
Theorem list_left_open_after_blank_or_heading :
  opened (lit "- a

b") = 1%nat /\ closed (lit "- a

b") = 0%nat /\
  opened (lit "- a
# H") = 1%nat /\ closed (lit "- a
# H") = 0%nat.
Proof. vm_compute. repeat split. Qed.

(** C4.  The end-to-end input is classified as the claim says, in both
    tracks; the flow emitter opens one container for the two items and
    writes no closing tag at all, the paragraph break coming straight
    after the second item. *)
Theorem end_to_end_list_never_closed :
  let text := lit "# Title

Para one.
- item a
- item b

Para two." in
  let blocks :=
    [Heading 1 (lit "Title"); Blank; Paragraph (lit "Para one.");
     UnorderedItem (lit "item a"); UnorderedItem (lit "item b"); Blank;
     Paragraph (lit "Para two.")] in
  map Flow.classify (source_lines text) = blocks /\
  map Pdf.classify (source_lines text) = blocks /\
  emitted text
  = [heading_element 1 (lit "Title"); p_break;
     paragraph_element (lit "Para one."); list_open_L1;
     bullet_item (lit "item a"); bullet_item (lit "item b"); p_break;
     paragraph_element (lit "Para two.")] /\
  opened text = 1%nat /\ closed text = 0%nat.
Proof. vm_compute. repeat split. Qed.

(** The claim of C2 fails on a numbered item that follows a bullet item:
    the item is appended and nothing else, so it is not true that the
    container is closed and a numbered one opened. *)
Lemma no_reopen_on_category_switch :
  let st := feed start (lit "- a") in
  in_list st = true /\
  Flow.classify (rstrip (lit "1. b")) = OrderedItem (lit "1") (lit "b") /\
  content_lines (feed st (lit "1. b"))
  = content_lines st ++ [numbered_item (lit "1") (lit "b")] /\
  ~ closes_and_reopens st (lit "1. b").
Proof.
  cbv zeta. repeat split; try (vm_compute; reflexivity).
  intros [item H]. vm_compute in H. discriminate H.
Qed.

Lemma feed_item_in_open_list (st : emitter) (raw : str) :
  in_list st = true ->
  is_list_item (Flow.classify (rstrip raw)) = true ->
  content_lines (feed st raw)
  = content_lines st ++ item_lines (Flow.classify (rstrip raw))
  /\ in_list (feed st raw) = true.
Proof.
  intros Hopen Hitem. unfold feed.
  destruct (Flow.classify (rstrip raw)); try discriminate;
    unfold enter_list; rewrite Hopen; cbn; auto.
  now rewrite app_nil_r.
Qed.

Lemma feed_items_in_open_list (raws : list str) :
  Forall (fun raw => is_list_item (Flow.classify (rstrip raw)) = true) raws ->
  forall st, in_list st = true ->
    content_lines (fold_left feed raws st)
    = content_lines st
      ++ flat_map (fun raw => item_lines (Flow.classify (rstrip raw))) raws
    /\ in_list (fold_left feed raws st) = true.
Proof.
  induction 1 as [|raw raws Hraw _ IH]; intros st Hopen; cbn.
  - now rewrite app_nil_r.
  - destruct (feed_item_in_open_list st raw Hopen Hraw) as [E1 E2].
    destruct (IH _ E2) as [E3 E4]. split; [|exact E4].
    now rewrite E3, E1, <- app_assoc.
Qed.

(** C2, amended.  While a list container is open, a list item of either
    category is appended to it as it is, with no closing or opening tag
    and the container staying open, whatever the category of the items
    before it: a run of list items, of any mix of categories, adds its
    items and no tag.  A paragraph closes the open container before the
    paragraph is written. *)
Theorem open_list_takes_any_item_and_paragraph_closes
  (st : emitter) (raw : str) (Hopen : in_list st = true) :
  (forall t, Flow.classify (rstrip raw) = UnorderedItem t ->
     feed st raw = append st (bullet_item t)) /\
  (forall n t, Flow.classify (rstrip raw) = OrderedItem n t ->
     feed st raw = append st (numbered_item n t)) /\
  (forall raws,
     Forall (fun r => is_list_item (Flow.classify (rstrip r)) = true) raws ->
     content_lines (fold_left feed raws st)
     = content_lines st
       ++ flat_map (fun r => item_lines (Flow.classify (rstrip r))) raws
     /\ in_list (fold_left feed raws st) = true) /\
  (forall t, Flow.classify (rstrip raw) = Paragraph t ->
     content_lines (feed st raw)
     = content_lines st ++ [list_close; paragraph_element t] /\
     in_list (feed st raw) = false).
Proof.
  split; [|split; [|split]].
  - intros t H. unfold feed. rewrite H. unfold enter_list. now rewrite Hopen.
  - intros n t H. unfold feed. rewrite H. unfold enter_list.
    now rewrite Hopen.
  - intros raws H. now apply feed_items_in_open_list.
  - intros t H. unfold feed. rewrite H. unfold close_list, append.
    rewrite Hopen. cbn. now rewrite <- app_assoc.
Qed.

Lemma open_list_takes_any_item_witness :
  let st := feed start (lit "- a") in
  feed st (lit "1. b") = append st (numbered_item (lit "1") (lit "b")).
Proof.
  cbv zeta.
  apply (proj1 (proj2 (open_list_takes_any_item_and_paragraph_closes
                         (feed start (lit "- a")) (lit "1. b")
                         eq_refl))).
  vm_compute. reflexivity.
Defined.

End ListContainers.

(* ================================================================== *)
(** * Empty documents *)
(* ================================================================== *)

Section EmptyDocument.

Import Pdf.

Lemma split_nonempty (sep : char) (s : str) : split sep s <> [].
Proof.
  destruct s as [|c s]; cbn; [discriminate|].
  destruct (c =? sep)%N; [discriminate|].
  destruct (split sep s); discriminate.
Qed.

(** Every branch of [parse_lines] appends an entry. *)
Lemma parsed_of_classify (line : str) :
  exists p, parsed_of (Pdf.classify line) = Some p.
Proof.
  unfold Pdf.classify. destruct line as [|c l]; [now eexists|].
  destruct (startswith [hash] (lstrip (c :: l))); [now eexists|].
  destruct (starts_with_bullet (lstrip (c :: l))); [now eexists|].
  destruct (re_ordered (lstrip (c :: l))) as [[[number ws] rest]|];
    now eexists.
Qed.

Lemma parse_lines_length (text : str) :
  length (parse_lines text) = length (source_lines text).
Proof.
  unfold parse_lines, source_lines. rewrite length_map.
  induction (split nl (strip text)) as [|raw raws IH]; [reflexivity|].
  cbn [flat_map]. rewrite length_app, IH.
  destruct (parsed_of_classify (rstrip raw)) as [p ->]. reflexivity.
Qed.

Lemma parse_lines_nonempty (text : str) : parse_lines text <> [].
Proof.
  intros E. apply (f_equal (@length styled)) in E.
  rewrite parse_lines_length in E. unfold source_lines in E.
  rewrite length_map in E.
  pose proof (@split_nonempty nl (strip text)) as N.
  destruct (split nl (strip text)); [congruence | discriminate].
Qed.

Lemma wrap_text_simple_nonempty (text : str) (n : Z) :
  wrap_text_simple text n <> [].
Proof.
  destruct (wrap_text_simple_groups text n)
    as [[-> _]|(groups & Hne & -> & _)]; [discriminate|].
  destruct groups; [congruence | discriminate].
Qed.

Lemma spaced_nonempty (style : Style) (ls : list str) :
  ls <> [] -> spaced style ls <> [].
Proof. destruct ls as [|l [|l' ls]]; [congruence | discriminate..]. Qed.

Lemma wrap_parsed_lines (p : styled) (n : Z) :
  max_chars_of (snd p) = Some n ->
  exists ls, wrap_parsed p = Some ls /\ ls <> [].
Proof.
  intros H. unfold wrap_parsed. destruct (fst p) as [|c t] eqn:E.
  - eexists. split; [reflexivity | discriminate].
  - rewrite H. eexists. split; [reflexivity|].
    apply spaced_nonempty, wrap_text_simple_nonempty.
Qed.

Lemma wrap_all_lines (ps : list styled) :
  Forall (fun p => exists n, max_chars_of (snd p) = Some n) ps ->
  exists w, wrap_all ps = Some w /\ (ps <> [] -> w <> []).
Proof.
  induction 1 as [|p ps [n Hn] _ [w [Hw _]]]; cbn.
  - exists []. split; [reflexivity | intros F; now contradiction F].
  - destruct (wrap_parsed_lines p Hn) as (ls & -> & Hls). rewrite Hw.
    exists (ls ++ w). split; [reflexivity|]. intros _ E.
    apply app_eq_nil in E as [E _]. congruence.
Qed.

(** The wrapping loop raises nothing on the entries of [parse_lines],
    and returns at least one line. *)
Lemma wrap_all_parse_lines (text : str) :
  exists w, wrap_all (parse_lines text) = Some w /\ w <> [].
Proof.
  destruct (@wrap_all_lines (parse_lines text)) as (w & Hw & Hne).
  - apply Forall_forall. intros p Hp.
    apply parse_lines_parsed in Hp as (line & _ & Hp).
    apply parsed_budget_bounds in Hp as (n & Hn & _). now exists n.
  - exists w. split; [exact Hw|]. apply Hne, parse_lines_nonempty.
Qed.

Lemma place_content (st : paginator) (l : styled) :
  current_page_content (place st l) <> [].
Proof.
  unfold place. cbn [current_page_content]. intros E.
  apply app_eq_nil in E as [_ E]. discriminate.
Qed.

Lemma fold_place_content (ls : list styled) :
  ls <> [] ->
  forall st, current_page_content (fold_left place ls st) <> [].
Proof.
  induction ls as [|l ls IH]; [congruence|]. intros _ st.
  destruct ls as [|l' ls]; [apply place_content|].
  apply (IH ltac:(discriminate)).
Qed.

Lemma place_rendered (st : paginator) (l : styled) :
  Forall (fun p => page_lines p <> []) (rendered st) ->
  Forall (fun p => page_lines p <> []) (rendered (place st l)).
Proof.
  intros H. unfold place. cbn [rendered].
  destruct (PrimFloat.ltb _ _); [|exact H].
  destruct (current_page_content st) as [|x xs] eqn:E; [exact H|].
  cbn [rendered render_page]. apply Forall_app. split; [exact H|].
  constructor; [|constructor]. cbn. rewrite E. discriminate.
Qed.

Lemma fold_place_rendered (ls : list styled) :
  forall st,
    Forall (fun p => page_lines p <> []) (rendered st) ->
    Forall (fun p => page_lines p <> []) (rendered (fold_left place ls st)).
Proof.
  induction ls as [|l ls IH]; intros st H; cbn; [exact H|].
  apply IH, place_rendered, H.
Qed.

(** The pages rendered for at least one line are at least one, and none
    of them is without lines. *)
Lemma paginate_pages (wrapped : list styled) :
  wrapped <> [] ->
  paginate wrapped <> []
  /\ Forall (fun p => page_lines p <> []) (paginate wrapped).
Proof.
  intros Hne. unfold paginate.
  set (st0 := {| rendered := []; page_number := 1;
                 current_page_content := []; current_y := page_top |}).
  pose proof (@fold_place_content wrapped Hne st0) as Hc.
  pose proof (@fold_place_rendered wrapped st0 (Forall_nil _)) as Hr.
  destruct (current_page_content (fold_left place wrapped st0))
    as [|x xs] eqn:E; [congruence|].
  cbn [rendered render_page]. split.
  - intros F. apply app_eq_nil in F as [_ F]. discriminate.
  - apply Forall_app. split; [exact Hr|].
    constructor; [|constructor]. cbn. rewrite E. discriminate.
Qed.

(** The claim of C8 fails on the empty text: it is not parsed as no
    block but as one blank line, and its one content page is not
    without lines, it holds this empty line. *)
Lemma empty_text_page_holds_a_line :
  parse_lines (lit "") = [([], mk_style 12 normal 0.0 0.5)] /\
  content_pages (lit "")
  = Some [{| number := 1;
             page_lines := [([], mk_style 12 normal 0.0 0.5)] |}] /\
  ~ (exists n,
       content_pages (lit "")
       = Some [{| number := n; page_lines := [] |}]).
Proof.
  repeat split; try (vm_compute; reflexivity).
  intros [n H]. vm_compute in H. discriminate H.
Qed.

(** C8, amended.  An assignment text that is empty once stripped is
    accepted: it is parsed as one blank line, and its content pages are
    one page, numbered 1, that holds this one empty line.  No text is
    parsed as no block: every text gives at least one parsed line, is
    wrapped and paginated without an error, and gives at least one
    content page, none of them without lines. *)
Theorem every_text_is_paged_and_empty_text_holds_one_line :
  (forall text, strip text = [] ->
     content_pages text
     = Some [{| number := 1;
                page_lines := [([], mk_style 12 normal 0.0 0.5)] |}]) /\
  (forall text,
     parse_lines text <> [] /\
     exists pages,
       content_pages text = Some pages /\ pages <> []
       /\ Forall (fun p => page_lines p <> []) pages).
Proof.
  split.
  - intros text H. unfold content_pages, parse_lines. rewrite H.
    vm_compute. reflexivity.
  - intros text. split; [apply parse_lines_nonempty|].
    destruct (wrap_all_parse_lines text) as (w & Hw & Hne).
    exists (paginate w). unfold content_pages. rewrite Hw.
    split; [reflexivity|]. now apply paginate_pages.
Qed.

Lemma every_text_is_paged_and_empty_text_holds_one_line_witness :
  content_pages (lit "   ")
  = Some [{| number := 1;
             page_lines := [([], mk_style 12 normal 0.0 0.5)] |}].
Proof.
  apply (proj1 every_text_is_paged_and_empty_text_holds_one_line
           (lit "   ")).
  reflexivity.
Defined.

End EmptyDocument.
